(** * PyVMRK: the VMRK marker-log pipeline of [vmrk.py]

    A shallow embedding of [vmrk.py]: the stimulus/response classifier
    ([Code.fromSRCodes]), the per-block storage with its outlier filter and
    conditioned query ([Block]), the trial assembler ([process_trial]), the
    practice/experiment segmenter ([process_vmrk]) and the summary statistics
    ([summarize_vmrk]), followed by the properties of the specification that
    were checked against them.

    Python integers are unbounded, so they are [Z].  Python exceptions are an
    explicit error monad [res].  Quotients that Python computes as floats are
    kept as exact rationals ([Q]); a standard deviation is kept as the
    rational variance under a formal square root.  Rounding and overflow of
    floats are not modelled: where a property names the exception that
    [summarize_vmrk] raises, it is stated for response times in
    [[150, 3000]], which keeps every quotient inside the range of a float. *)

From stdpp Require Import base list option strings.
From Stdlib Require Import ZArith QArith Ascii.

Local Open Scope Z_scope.

(** ** Exceptions *)

Inductive exn := ZeroDivisionError | IndexError | ValueError.

Inductive res (A : Type) : Type :=
  | Ok (a : A)
  | Raise (e : exn).
Arguments Ok {A} a.
Arguments Raise {A} e.

#[global] Instance res_ret : MRet res := λ A a, Ok a.
#[global] Instance res_bind : MBind res := λ A B f m,
  match m with Ok a => f a | Raise e => Raise e end.
#[global] Instance res_fmap : FMap res := λ A B f m,
  match m with Ok a => Ok (f a) | Raise e => Raise e end.

(** [l[i]] for an index [i >= 0]: [IndexError] past the end. *)
Definition index {A} (l : list A) (i : nat) : res A :=
  match l !! i with Some x => Ok x | None => Raise IndexError end.

(** [[l[i] for i in ii]] *)
Definition gather {A} (l : list A) (ii : list nat) : res (list A) :=
  match mapM (λ i, l !! i) ii with Some k => Ok k | None => Raise IndexError end.

(** [enumerate(l, k)] *)
Fixpoint enumerate_from {A} (k : nat) (l : list A) : list (nat * A) :=
  match l with
  | [] => []
  | x :: l' => (k, x) :: enumerate_from (S k) l'
  end.
Definition enumerate {A} (l : list A) : list (nat * A) := enumerate_from 0 l.

(** [len(l)] as a Python integer *)
Definition len {A} (l : list A) : Z := Z.of_nat (length l).

(** [sum(l)] *)
Definition sum (l : list Z) : Z := foldr Z.add 0 l.

(** ** Module constants *)

(** Outliers are defined to fall outside the interval (low, high) *)
Definition low : Z := 150.
Definition high : Z := 3000.

(** Should be 1 *)
Definition ddof : Z := 0.

(** ** [class Code] *)

Module Code.
Record t := mk { side : string; congruent : bool; correct : bool }.

Definition fromSRCodes (a b : Z) : t :=
  let side := if (a =? 1) || (a =? 2) then "left" else "right" in
  let congruent := if (a =? 1) || (a =? 3) then true else false in
  let correct := if (b =? 5) || (b =? 6) then true else false in
  mk side congruent correct.
End Code.

(** ** [class Trial] *)

Record Trial := mkTrial { srcode : Z; time : Z }.

(** ** [class Block]: three parallel lists *)

Record Block := mkBlock {
  Code : list Code.t;   (* Stimulus/response codes *)
  Rtim : list Z;        (* Response times *)
  Ntri : list Z         (* Number of responses within a trial *)
}.

(** [Block()] *)
Definition Block_new : Block := mkBlock [] [] [].

Definition filter_outliers (low high : Z) (self : Block) : res Block :=
  let ii := (filter (λ p : nat * Z, low ≤ p.2 ∧ p.2 ≤ high)
                    (enumerate (Rtim self))).*1 in
  code ← gather (Code self) ii;
  rtim ← gather (Rtim self) ii;
  ntri ← gather (Ntri self) ii;
  Ok (mkBlock code rtim ntri).

(** The body of the loop of [query] at item [(j, (c, x))]: [Ok true] when
    the item reaches [ret.append(x)], [Ok false] when it meets a
    [continue]. *)
Definition query_keep (self : Block) (side : option string)
    (congruent correct lastcorrect : option bool)
    (item : nat * (Code.t * Z)) : res bool :=
  let j := item.1 in
  let c := item.2.1 in
  if (match side with
      | Some s => bool_decide (Code.side c ≠ s) | None => false end)
  then Ok false
  else if (match congruent with
           | Some g => bool_decide (Code.congruent c ≠ g) | None => false end)
  then Ok false
  else if (match correct with
           | Some r => bool_decide (Code.correct c ≠ r) | None => false end)
  then Ok false
  else match lastcorrect with
       | Some lc =>
           if bool_decide (0 < j)%nat then
             p ← index (Code self) (j - 1);
             if bool_decide (Code.correct p ≠ lc) then Ok false else Ok true
           else Ok true
       | None => Ok true
       end.

(** The loop of [query], keeping the whole item [(j, (c, x))] of every
    iteration that reaches [ret.append(x)]. *)
Fixpoint query_loop (keep : nat * (Code.t * Z) → res bool)
    (items : list (nat * (Code.t * Z))) : res (list (nat * (Code.t * Z))) :=
  match items with
  | [] => Ok []
  | it :: rest =>
      k ← keep it;
      kept ← query_loop keep rest;
      Ok (if k : bool then it :: kept else kept)
  end.

Definition query_kept (self : Block) (side : option string)
    (congruent correct lastcorrect : option bool)
    : res (list (nat * (Code.t * Z))) :=
  query_loop (query_keep self side congruent correct lastcorrect)
             (enumerate (zip (Code self) (Rtim self))).

(** [Block.query]: the response times [x] of the kept items. *)
Definition query (self : Block) (side : option string)
    (congruent correct lastcorrect : option bool) : res (list Z) :=
  kept ← query_kept self side congruent correct lastcorrect;
  Ok (map (λ it : nat * (Code.t * Z), it.2.2) kept).

(** ** [process_trial] *)

(** The record that [process_trial] appends for the window [qu]
    (code, response time, number of markers), or [None] on the early
    return. *)
Definition assemble (qu : list Trial) : option (Code.t * Z * Z) :=
  match qu with
  | q0 :: q1 :: q2 :: _ =>
      if negb (srcode q0 =? 99) then None
      else
        let code := Code.fromSRCodes (srcode q1) (srcode q2) in
        let rt := 2 * (time q2 - time q1) in
        Some (code, rt, len qu)
  | _ => None   (* len(qu) < 3 *)
  end.

Definition process_trial (qu : list Trial) (block : Block) : res Block :=
  match assemble qu with
  | None => Ok block
  | Some (code, rt, n) =>
      filter_outliers low high
        (mkBlock (Code block ++ [code]) (Rtim block ++ [rt]) (Ntri block ++ [n]))
  end.

(** ** [collapse_blocks] *)

Definition collapse_blocks (data : list Block) : Block :=
  fold_left (λ blk block,
               mkBlock (Code blk ++ Code block)
                       (Rtim blk ++ Rtim block)
                       (Ntri blk ++ Ntri block))
            data Block_new.

(** ** [process_vmrk] *)

(** One row of the reader, as the loop of [process_vmrk] looks at it: each
    field holds the outcome of the expression the loop evaluates on the row,
    an exception included. *)
Record Line := mkLine {
  is_mark : bool;        (* len(line) > 0 and line[0].startswith("Mk") *)
  kind : res string;     (* line[0].split("=")[1].lower() *)
  code_field : res Z;    (* int(line[1].replace(" ", "")[1:]) *)
  time_field : res Z     (* int(line[2]) *)
}.

(** The row [Mk<n>=Stimulus,S<c>,<t>,...] *)
Definition stimulus (c t : Z) : Line := mkLine true (Ok "stimulus") (Ok c) (Ok t).

Inductive Mode := practice | experiment.

(** The local variables of [process_vmrk] *)
Record State := mkState {
  blocknum : Z;
  dblock : Z;
  mode : Mode;
  n99 : Z;
  n144 : bool;
  qu : list Trial;
  data : list Block;
  block : Block
}.

Definition init : State := mkState 0 0 practice 0 false [] [] Block_new.

(** [qu[0:-1]] and [[qu[-1]]] of a non-empty list *)
Definition but_last {A} (l : list A) : list A := take (length l - 1) l.
Definition only_last {A} (l : list A) : list A := drop (length l - 1) l.

(** The body of the loop over the rows *)
Definition loop_body (st : State) (line : Line) : res State :=
  (* Only process "mark" lines *)
  if negb (is_mark line) then Ok st else
  fl ← kind line;
  if bool_decide (fl = "comment") then Ok st
  else if negb (bool_decide (fl = "stimulus")) then Ok st
  else
  stimcode ← code_field line;
  match mode st with
  | practice =>
      let n99' := if stimcode =? 99 then n99 st + 1 else n99 st in
      let n144' := if (n99' =? 3) && (stimcode =? 144) then true else n144 st in
      if (n99' =? 3) && n144' && (stimcode =? 255) then
        Ok (mkState (blocknum st) (dblock st) experiment n99' n144'
                    (qu st) (data st) (block st))
      else
        Ok (mkState (blocknum st) (dblock st) practice n99' n144'
                    (qu st) (data st) (block st))
  | experiment =>
      t ← time_field line;
      let qu' := qu st ++ [mkTrial stimcode t] in
      (* Handle end of block markers *)
      if (stimcode =? 144) || (stimcode =? 255) then
        if 0 <? dblock st then
          block' ← process_trial (but_last qu') (block st);
          Ok (mkState (blocknum st + 1) 0 experiment (n99 st) (n144 st)
                      (only_last qu') (data st ++ [block']) Block_new)
        else
          Ok (mkState (blocknum st) (dblock st) experiment (n99 st) (n144 st)
                      qu' (data st) (block st))
      else
        let dblock' := dblock st + 1 in
        if stimcode =? 99 then
          block' ← process_trial (but_last qu') (block st);
          Ok (mkState (blocknum st) dblock' experiment (n99 st) (n144 st)
                      (only_last qu') (data st) block')
        else
          Ok (mkState (blocknum st) dblock' experiment (n99 st) (n144 st)
                      qu' (data st) (block st))
  end.

(** The loop over the rows, from the state [st] *)
Fixpoint run_from (st : State) (rdr : list Line) : res State :=
  match rdr with
  | [] => Ok st
  | line :: rest => st' ← loop_body st line; run_from st' rest
  end.

Definition run (rdr : list Line) : res State := run_from init rdr.

Definition process_vmrk (rdr : list Line) : res (list Block) :=
  st ← run rdr;
  (* Final trial may not have been processed *)
  _ ← process_trial (qu st) (block st);
  Ok (data st).

(** ** [summarize_vmrk] *)

(** The values stored in the result mapping.  [VFloat q] is the float that
    Python computes for the exact quotient [q]; [VSqrt q] the float for the
    square root of [q]; [VNaN] the float nan. *)
Inductive Value :=
  | VStr (s : string)
  | VInt (n : Z)
  | VFloat (q : Q)
  | VSqrt (q : Q)
  | VNaN.

(** [filename.split(".")[0]]: the text before the first dot *)
Fixpoint before_dot (s : string) : string :=
  match s with
  | EmptyString => EmptyString
  | String a s' => if Ascii.eqb a "."%char then EmptyString else String a (before_dot s')
  end.

(** [a / b] on Python integers (the true division of Python 3; a zero
    divisor raises in Python 2 as well) *)
Definition true_div (a b : Z) : res Q :=
  if b =? 0 then Raise ZeroDivisionError else Ok (inject_Z a / inject_Z b)%Q.

(** [np.mean(v)]: nan (and a RuntimeWarning, no exception) on an empty [v] *)
Definition np_mean (v : list Z) : Value :=
  match v with
  | [] => VNaN
  | _ => VFloat (inject_Z (sum v) / inject_Z (len v))%Q
  end.

(** The variance of a non-empty [v] with [ddof] delta degrees of freedom:
    the squared deviations from the mean, summed and divided by
    [len(v) - ddof] *)
Definition variance (v : list Z) : Q :=
  let m := (inject_Z (sum v) / inject_Z (len v))%Q in
  (foldr Qplus 0%Q (map (λ x, ((inject_Z x - m) * (inject_Z x - m))%Q) v)
   / inject_Z (len v - ddof))%Q.

(** [np.std(v, ddof=ddof)]: nan (and RuntimeWarnings, no exception) on an
    empty [v] *)
Definition np_std (v : list Z) : Value :=
  match v with
  | [] => VNaN
  | _ => VSqrt (variance v)
  end.

(** [sum([max(0, len(x) - 1) for x in v])] *)
Definition post_count (v : list (list Z)) : Z :=
  sum (map (λ x, Z.max 0 (len x - 1)) v).

(** The mean that follows each post-X count [n]:
    [sum([sum(x[1:]) for x in v]) / n] if [n > 0], else [0.] *)
Definition post_mean (v : list (list Z)) (n : Z) : Q :=
  if 0 <? n then (inject_Z (sum (map (λ x, sum (drop 1 x)) v)) / inject_Z n)%Q
  else 0%Q.

(** [[b.query(...) for b in data]] *)
Fixpoint query_each (data : list Block) (side : option string)
    (congruent correct lastcorrect : option bool) : res (list (list Z)) :=
  match data with
  | [] => Ok []
  | b :: rest =>
      x ← query b side congruent correct lastcorrect;
      xs ← query_each rest side congruent correct lastcorrect;
      Ok (x :: xs)
  end.

(** [np.sum(np.asarray(v) < 150)] and [sum(np.asarray(v) > 3)] *)
Definition count_lt (v : list Z) (k : Z) : Z := len (filter (λ x, x < k) v).
Definition count_gt (v : list Z) (k : Z) : Z := len (filter (λ x, k < x) v).

(** [[x for k,x in zip(cdata.Code, cdata.Rtim) if k.correct]] when [correct]
    is [true], and the same with [not k.correct] when it is [false] *)
Definition trials_where (correct : bool) (cdata : Block) : list Z :=
  (filter (λ kx : Code.t * Z, Code.correct kx.1 = correct)
          (zip (Code cdata) (Rtim cdata))).*2.

(** The result mapping is an [OrderedDict] whose keys are each set once: the
    list of its items in insertion order. *)
Definition summarize_vmrk (filename : string) (data : list Block)
    : res (list (string * Value)) :=
  let cdata := collapse_blocks data in
  let sid := before_dot filename in
  let all_trials := Rtim cdata in
  let correct_trials := trials_where true cdata in
  let error_trials := trials_where false cdata in
  let fcn := len correct_trials in
  let fen := len error_trials in
  facc ← true_div (100 * fcn) (len all_trials);
  (* All trial summaries *)
  let frtm := np_mean all_trials in
  let frtsd := np_std all_trials in
  (* All correct trial summaries *)
  let frtmc := np_mean correct_trials in
  let frtsdc := np_std correct_trials in
  (* All error trial summaries *)
  let frtme := np_mean error_trials in
  let frtsde := np_std error_trials in
  (* Congruent correct trials *)
  v ← query cdata None (Some true) (Some true) None;
  let fccn := len v in
  let fcrtmc := np_mean v in
  let fcrtsdc := np_std v in
  (* Congruent error trials *)
  v ← query cdata None (Some true) (Some false) None;
  let fcen := len v in
  let fcrtme := np_mean v in
  let fcrtsde := np_std v in
  (* Congruent accuracy *)
  fcacc ← true_div (100 * fccn) (fccn + fcen);
  (* Incongruent correct trials *)
  v ← query cdata None (Some false) (Some true) None;
  let ficn := len v in
  let firtmc := np_mean v in
  let firtsdc := np_std v in
  (* Incongruent error trials *)
  v ← query cdata None (Some false) (Some false) None;
  let fien := len v in
  let firtme := np_mean v in
  let firtsde := np_std v in
  (* Incongruent accuracy *)
  fiacc ← true_div (100 * ficn) (ficn + fien);
  (* Post correct correct trials *)
  v ← query_each data None None (Some true) (Some true);
  let fpccn := post_count v in
  (* Post correct error trials *)
  v ← query_each data None None (Some false) (Some true);
  let fpcen := post_count v in
  let fpcertm := post_mean v fpcen in
  (* Post error correct trials *)
  v ← query_each data None None (Some true) (Some false);
  let fpecn := post_count v in
  let fpecrtm := post_mean v fpecn in
  (* Post error error trials *)
  v ← query_each data None None (Some false) (Some false);
  let fpeen := post_count v in
  let fpeertm := post_mean v fpeen in
  (* Post error any trials *)
  v ← query_each data None None None (Some false);
  let fpexn := post_count v in
  let fpexrtm := post_mean v fpexn in
  (* Post any error trials *)
  v ← query_each data None None (Some false) None;
  let fpxen := post_count v in
  let fpxertm := post_mean v fpxen in
  (* Post correct accuracy *)
  faccpc ← true_div fpccn (fpccn + fpcen);
  (* Post error accuracy *)
  faccpe ← true_div fpecn (fpecn + fpeen);
  (* Post error slowing *)
  let fpes := (fpeertm - fpecrtm)%Q in
  let fpes2 := (fpcertm - fpecrtm)%Q in
  let fpes3 := (fpxertm - fpexrtm)%Q in
  (* Anticipatory responses *)
  let fan := count_lt all_trials 150 in
  let faen := count_lt error_trials 150 in
  (* Trials with extra responses *)
  let fscn := count_gt (Ntri cdata) 3 in
  Ok [ ("sid", VStr sid);
       ("fcn", VInt fcn); ("fen", VInt fen); ("facc", VFloat facc);
       ("frtm", frtm); ("frtsd", frtsd);
       ("frtmc", frtmc); ("frtsdc", frtsdc);
       ("frtme", frtme); ("frtsde", frtsde);
       ("fccn", VInt fccn); ("fcrtmc", fcrtmc); ("fcrtsdc", fcrtsdc);
       ("fcen", VInt fcen); ("fcrtme", fcrtme); ("fcrtsde", fcrtsde);
       ("fcacc", VFloat fcacc);
       ("ficn", VInt ficn); ("firtmc", firtmc); ("firtsdc", firtsdc);
       ("fien", VInt fien); ("firtme", firtme); ("firtsde", firtsde);
       ("fiacc", VFloat fiacc);
       ("fpccn", VInt fpccn);
       ("fpcen", VInt fpcen); ("fpcertm", VFloat fpcertm);
       ("fpecn", VInt fpecn); ("fpecrtm", VFloat fpecrtm);
       ("fpeen", VInt fpeen); ("fpeertm", VFloat fpeertm);
       ("fpexn", VInt fpexn); ("fpexrtm", VFloat fpexrtm);
       ("fpxen", VInt fpxen); ("fpxertm", VFloat fpxertm);
       ("faccpc", VFloat faccpc); ("faccpe", VFloat faccpe);
       ("fpes", VFloat fpes); ("fpes2", VFloat fpes2); ("fpes3", VFloat fpes3);
       ("fan", VInt fan); ("faen", VInt faen);
       ("fscn", VInt fscn) ].

(** [results[key]] *)
Fixpoint lookup_key (key : string) (results : list (string * Value)) : option Value :=
  match results with
  | [] => None
  | (k, v) :: rest => if String.eqb k key then Some v else lookup_key key rest
  end.

(** * Vocabulary of the properties *)

(** The indices [ii] computed by [filter_outliers] *)
Definition inliers (low high : Z) (rtim : list Z) : list nat :=
  (filter (λ p : nat * Z, low ≤ p.2 ∧ p.2 ≤ high) (enumerate rtim)).*1.

(** Every response time of the block lies in [[low, high]] *)
Definition in_range (low high : Z) (b : Block) : Prop :=
  Forall (λ rt, low ≤ rt ≤ high) (Rtim b).

(** The codes and the response times of the block are paired *)
Definition paired (b : Block) : Prop := length (Code b) = length (Rtim b).

(** The three lists of the block run in parallel *)
Definition aligned (b : Block) : Prop :=
  length (Code b) = length (Rtim b) ∧ length (Ntri b) = length (Rtim b).

(** The early return of [process_trial]:
    [len(qu) < 3 or qu[0].srcode != 99] *)
Definition malformed (qu : list Trial) : Prop :=
  (length qu < 3)%nat ∨ srcode <$> head qu ≠ Some 99.

(** The block with one more record, before the filter runs *)
Definition appended (block : Block) (r : Code.t * Z * Z) : Block :=
  mkBlock (Code block ++ [r.1.1]) (Rtim block ++ [r.1.2]) (Ntri block ++ [r.2]).

(** What the segmenter maintains for the block in progress and for the
    blocks of the dataset *)
Definition block_ok (b : Block) : Prop := in_range low high b ∧ aligned b.

Definition state_ok (st : State) : Prop :=
  block_ok (block st) ∧ Forall block_ok (data st).

(** The three attribute tests of the loop of [query]: [true] when none of
    them executes [continue]. *)
Definition attrs_pass (side : option string) (congruent correct : option bool)
    (c : Code.t) : bool :=
  match side with Some s => bool_decide (Code.side c = s) | None => true end
  && match congruent with
     | Some g => bool_decide (Code.congruent c = g) | None => true end
  && match correct with
     | Some r => bool_decide (Code.correct c = r) | None => true end.

(** The [lastcorrect] test at index [j]: only an index [j > 0] is tested,
    against the record before it. *)
Definition prev_pass (self : Block) (lastcorrect : option bool) (j : nat) : bool :=
  match lastcorrect, j with
  | None, _ => true
  | Some _, O => true
  | Some lc, S j' =>
      match Code self !! j' with
      | Some p => bool_decide (Code.correct p = lc)
      | None => false
      end
  end.

(** The decision of the body of the loop of [query] on one item *)
Definition keeps (self : Block) (side : option string)
    (congruent correct lastcorrect : option bool)
    (it : nat * (Code.t * Z)) : bool :=
  attrs_pass side congruent correct it.2.1 && prev_pass self lastcorrect it.1.

(** The response times of the records that pass the attribute tests *)
Definition selected (side : option string) (congruent correct : option bool)
    (codes : list Code.t) (rtim : list Z) : list Z :=
  (filter (λ kx : Code.t * Z, attrs_pass side congruent correct kx.1 = true)
          (zip codes rtim)).*2.

(** A stream of stimulus rows, one per marker *)
Definition stream (ms : list Trial) : list Line :=
  (λ m, stimulus (srcode m) (time m)) <$> ms.

Definition codes (ms : list Trial) : list Z := srcode <$> ms.

Definition count99 (cs : list Z) : nat := length (filter (λ c, c = 99) cs).

(** A 144 arrived while exactly three 99s had been counted *)
Definition seen144 (pre : list Z) : Prop :=
  ∃ p1 p2, pre = p1 ++ 144 :: p2 ∧ count99 p1 = 3%nat.

(** The gate is open after [pre]: a 144 arrived while exactly three 99s had
    been counted, and no further 99 arrived since. *)
Definition armed (pre : list Z) : Prop :=
  ∃ p1 p2, pre = p1 ++ 144 :: p2 ∧ count99 p1 = 3%nat ∧ count99 p2 = 0%nat.

(** Marker [i] is a 255 that finds the gate open *)
Definition fires (cs : list Z) (i : nat) : Prop :=
  cs !! i = Some 255 ∧ armed (take i cs).

Definition first_fires (cs : list Z) (i : nat) : Prop :=
  fires cs i ∧ ∀ j, (j < i)%nat → ¬ fires cs j.

(** The gate as the specification words it: the third 99 has been seen and
    a 144 has been seen after it. *)
Definition armed_spec (pre : list Z) : Prop :=
  ∃ p1 p2, pre = p1 ++ 144 :: p2 ∧ (3 ≤ count99 p1)%nat.

Definition fires_spec (cs : list Z) (i : nat) : Prop :=
  cs !! i = Some 255 ∧ armed_spec (take i cs).

Definition first_fires_spec (cs : list Z) (i : nat) : Prop :=
  fires_spec cs i ∧ ∀ j, (j < i)%nat → ¬ fires_spec cs j.

(** The segmenter leaves practice mode on marker [i] of the stream *)
Definition transition_at (ms : list Trial) (i : nat) : Prop :=
  ∃ st st', run (stream (take i ms)) = Ok st
            ∧ run (stream (take (S i) ms)) = Ok st'
            ∧ (i < length ms)%nat
            ∧ mode st = practice ∧ mode st' = experiment.

(** The state just after the transition, and any state of practice mode *)
Definition fresh (st : State) : Prop :=
  blocknum st = 0 ∧ dblock st = 0 ∧ qu st = [] ∧ data st = []
  ∧ block st = Block_new.

(** What [query] returns, as a total function *)
Definition queried (self : Block) (side : option string)
    (congruent correct lastcorrect : option bool) : list Z :=
  map (λ it : nat * (Code.t * Z), it.2.2)
      (filter (λ it, keeps self side congruent correct lastcorrect it = true)
              (enumerate (zip (Code self) (Rtim self)))).

Definition queried_each (data : list Block) (side : option string)
    (congruent correct lastcorrect : option bool) : list (list Z) :=
  (λ b, queried b side congruent correct lastcorrect) <$> data.

(** The denominators of the five ratio statistics *)
Definition den_facc (data : list Block) : Z := len (Rtim (collapse_blocks data)).

Definition den_fcacc (data : list Block) : Z :=
  len (queried (collapse_blocks data) None (Some true) (Some true) None)
  + len (queried (collapse_blocks data) None (Some true) (Some false) None).

Definition den_fiacc (data : list Block) : Z :=
  len (queried (collapse_blocks data) None (Some false) (Some true) None)
  + len (queried (collapse_blocks data) None (Some false) (Some false) None).

Definition den_faccpc (data : list Block) : Z :=
  post_count (queried_each data None None (Some true) (Some true))
  + post_count (queried_each data None None (Some false) (Some true)).

Definition den_faccpe (data : list Block) : Z :=
  post_count (queried_each data None None (Some true) (Some false))
  + post_count (queried_each data None None (Some false) (Some false)).

(** A block with a single record *)
Definition one_trial : Block := mkBlock [Code.mk "left" true true] [200] [3].

(** C1 as the specification states it: with [lastcorrect] set to [X], no
    kept item has index 0. *)
Definition excludes_first (self : Block) (side : option string)
    (congruent correct : option bool) (X : bool) : Prop :=
  ∀ kept, query_kept self side congruent correct (Some X) = Ok kept →
          ∀ it, it ∈ kept → it.1 ≠ 0%nat.

(** The practice-gating sequence (three 99s, a 144, a 255), then one block
    with the markers 99, 1, 5 and the closing 144; the response marker comes
    [d] ticks after the stimulus marker. *)
Definition scenario_A (t1 t2 t3 t4 t5 t6 t7 d t9 : Z) : list Line :=
  [stimulus 99 t1; stimulus 99 t2; stimulus 99 t3; stimulus 144 t4;
   stimulus 255 t5;
   stimulus 99 t6; stimulus 1 t7; stimulus 5 (t7 + d); stimulus 144 t9].

(** C2 as the specification states it: the dataset holds exactly one record,
    with the given code and response time. *)
Definition yields_one_record (rdr : list Line) (c : Code.t) (rt : Z) : Prop :=
  ∃ data, process_vmrk rdr = Ok data
          ∧ concat (Code <$> data) = [c] ∧ concat (Rtim <$> data) = [rt].

(** C3 as the specification states it: the transition happens exactly on the
    first 255 that comes after the third 99 and a later 144. *)
Definition gate_as_specified : Prop :=
  ∀ ms i, transition_at ms i ↔ first_fires_spec (codes ms) i.

(** The three rows of one trial: fixation at [t], stimulus [a], and the
    response [b] coming [d] ticks after the stimulus *)
Definition trial_rows (t a b d : Z) : list Line :=
  [stimulus 99 t; stimulus a (t + 10); stimulus b (t + 10 + d)].

(** A session of one block with six trials: the gating sequence, then
    congruent-correct, incongruent-error, incongruent-correct,
    congruent-correct, incongruent-error, incongruent-error, and the closing
    144. *)
Definition sample_rows : list Line :=
  [stimulus 99 1; stimulus 99 2; stimulus 99 3; stimulus 144 4; stimulus 255 5]
  ++ trial_rows 1000 1 5 100 ++ trial_rows 2000 2 7 110
  ++ trial_rows 3000 2 5 120 ++ trial_rows 4000 1 5 130
  ++ trial_rows 5000 2 7 140 ++ trial_rows 6000 2 7 150
  ++ [stimulus 144 7000].

(** The dataset that [process_vmrk] returns for [sample_rows] *)
Definition sample_data : list Block :=
  [mkBlock [Code.mk "left" true true; Code.mk "left" false false;
            Code.mk "left" false true; Code.mk "left" true true;
            Code.mk "left" false false; Code.mk "left" false false]
           [200; 220; 240; 260; 280; 300]
           [3; 3; 3; 3; 3; 3]].

(** The (count, mean) keys of the post-X means *)
Definition post_means : list (string * string) :=
  [("fpcen", "fpcertm"); ("fpecn", "fpecrtm"); ("fpeen", "fpeertm");
   ("fpexn", "fpexrtm"); ("fpxen", "fpxertm")].



(** The records of a block, one triple (code, response time, number of
    markers) per position, and the block that holds given records *)
Definition rows (b : Block) : list (Code.t * Z * Z) :=
  zip (zip (Code b) (Rtim b)) (Ntri b).

Definition of_rows (l : list (Code.t * Z * Z)) : Block :=
  mkBlock (l.*1.*1) (l.*1.*2) (l.*2).

(** The keys of the result mapping, in the order [summarize_vmrk] sets them *)
Definition result_keys : list string :=
  [ "sid"; "fcn"; "fen"; "facc"; "frtm"; "frtsd"; "frtmc"; "frtsdc"; "frtme";
    "frtsde"; "fccn"; "fcrtmc"; "fcrtsdc"; "fcen"; "fcrtme"; "fcrtsde";
    "fcacc"; "ficn"; "firtmc"; "firtsdc"; "fien"; "firtme"; "firtsde";
    "fiacc"; "fpccn"; "fpcen"; "fpcertm"; "fpecn"; "fpecrtm"; "fpeen";
    "fpeertm"; "fpexn"; "fpexrtm"; "fpxen"; "fpxertm"; "faccpc"; "faccpe";
    "fpes"; "fpes2"; "fpes3"; "fan"; "faen"; "fscn" ].

(** The ratio statistics with the largest value each can take *)
Definition ratio_stats : list (string * Z) :=
  [("facc", 100); ("fcacc", 100); ("fiacc", 100); ("faccpc", 1); ("faccpe", 1)].

(** The rows the loop of [process_vmrk] passes over: not a mark row, or a
    mark row of a kind other than stimulus (comments included) *)
Definition skipped (line : Line) : bool :=
  negb (is_mark line)
  || match kind line with
     | Ok fl => negb (bool_decide (fl = "stimulus"))
     | Raise _ => false
     end.

(** No character of [s] is a dot *)
Fixpoint dotless (s : string) : bool :=
  match s with
  | EmptyString => true
  | String a s' => negb (Ascii.eqb a "."%char) && dotless s'
  end.



(** * Properties *)

(** ** The error monad *)

Lemma bind_Ok {A B} (m : res A) (f : A → res B) (b : B) :
  m ≫= f = Ok b ↔ ∃ a, m = Ok a ∧ f a = Ok b.
Proof.
  destruct m as [a|e]; simpl.
  - split; [eauto | intros (a' & Ha & H); by injection Ha as <-].
  - split; [discriminate | intros (a' & [=] & _)].
Qed.

(** Split a hypothesis [m ≫= f = Ok b] into the two steps that succeeded. *)
Tactic Notation "inv_bind" hyp(H) "as" ident(a) ident(Ha) :=
  apply bind_Ok in H as (a & Ha & H).

(** ** Lists, indices and [gather] *)

Section Lists.
Context {A : Type}.
Implicit Types (l pre : list A) (k i : nat).

Lemma enumerate_from_length k l : length (enumerate_from k l) = length l.
Proof. revert k; induction l as [|x l IH]; intros k; simpl; [done | by rewrite IH]. Qed.

Lemma enumerate_from_app k l1 l2 :
  enumerate_from k (l1 ++ l2)
  = enumerate_from k l1 ++ enumerate_from (k + length l1) l2.
Proof.
  revert k; induction l1 as [|x l1 IH]; intros k; simpl.
  - by rewrite Nat.add_0_r.
  - rewrite IH. do 3 f_equal. lia.
Qed.

Lemma elem_of_enumerate_from k l i x :
  (i, x) ∈ enumerate_from k l ↔ (k ≤ i)%nat ∧ l !! (i - k)%nat = Some x.
Proof.
  revert k; induction l as [|y l IH]; intros k; simpl.
  - rewrite elem_of_nil, lookup_nil. split; [done | by intros [_ ?]].
  - rewrite elem_of_cons, IH. split.
    + intros [[= -> ->] | [Hle Hl]].
      * split; [lia|]. by rewrite Nat.sub_diag.
      * split; [lia|]. by replace (i - k)%nat with (S (i - S k)) by lia.
    + intros [Hle Hl]. destruct (decide (i = k)) as [->|Hne].
      * left. rewrite Nat.sub_diag in Hl. simpl in Hl. congruence.
      * right. split; [lia|].
        by replace (i - k)%nat with (S (i - S k)) in Hl by lia.
Qed.

Lemma elem_of_enumerate l i x : (i, x) ∈ enumerate l ↔ l !! i = Some x.
Proof.
  unfold enumerate. rewrite elem_of_enumerate_from, Nat.sub_0_r.
  split; [tauto | split; [lia | done]].
Qed.

Lemma gather_Ok l ii out :
  gather l ii = Ok out ↔ Forall2 (λ i y, l !! i = Some y) ii out.
Proof.
  unfold gather. rewrite <- mapM_Some.
  destruct (mapM _ ii); split; congruence.
Qed.

Lemma gather_length l ii out : gather l ii = Ok out → length out = length ii.
Proof. rewrite gather_Ok. intros H. symmetry. by eapply Forall2_length. Qed.

Lemma gather_seq pre l :
  Forall2 (λ i y, (pre ++ l) !! i = Some y) (seq (length pre) (length l)) l.
Proof.
  revert pre; induction l as [|x l IH]; intros pre; simpl; constructor.
  - apply list_lookup_middle. done.
  - specialize (IH (pre ++ [x])).
    rewrite <- app_assoc, length_app in IH. simpl in IH.
    by rewrite Nat.add_1_r in IH.
Qed.

Lemma gather_all l : gather l (seq 0 (length l)) = Ok l.
Proof. apply gather_Ok. exact (gather_seq [] l). Qed.
End Lists.

(** ** [filter_outliers] *)

Lemma elem_of_inliers lo hi rtim i :
  i ∈ inliers lo hi rtim ↔ ∃ rt, rtim !! i = Some rt ∧ lo ≤ rt ≤ hi.
Proof.
  unfold inliers. rewrite list_elem_of_fmap. split.
  - intros ([j rt] & -> & Hin). apply list_elem_of_filter in Hin as [HP Hin].
    apply elem_of_enumerate in Hin. simpl in *. eauto.
  - intros (rt & Hl & HP). exists (i, rt). split; [done|].
    apply list_elem_of_filter. split; [done | by apply elem_of_enumerate].
Qed.

Lemma inliers_all_from lo hi k rtim :
  Forall (λ rt, lo ≤ rt ≤ hi) rtim →
  (filter (λ p : nat * Z, lo ≤ p.2 ∧ p.2 ≤ hi) (enumerate_from k rtim)).*1
  = seq k (length rtim).
Proof.
  intros H. revert k. induction H as [|rt rtim Hrt _ IH]; intros k; simpl; [done|].
  rewrite filter_cons_True by done. simpl. by rewrite IH.
Qed.

Lemma inliers_all lo hi rtim :
  Forall (λ rt, lo ≤ rt ≤ hi) rtim → inliers lo hi rtim = seq 0 (length rtim).
Proof. apply inliers_all_from. Qed.

Lemma gather_inliers_sub lo hi rtim ii out :
  Forall (λ i, i ∈ inliers lo hi rtim) ii →
  gather rtim ii = Ok out → Forall (λ rt, lo ≤ rt ≤ hi) out.
Proof.
  rewrite gather_Ok. intros Hii H.
  induction H as [|i y ii out Hy _ IH]; [constructor|].
  apply Forall_cons in Hii as [Hi Hii]. constructor; [|by apply IH].
  apply elem_of_inliers in Hi as (rt & Hl & HP). congruence.
Qed.

Lemma gather_inliers lo hi rtim out :
  gather rtim (inliers lo hi rtim) = Ok out → Forall (λ rt, lo ≤ rt ≤ hi) out.
Proof. apply gather_inliers_sub, Forall_forall. auto. Qed.

Lemma filter_outliers_Ok lo hi b b' :
  filter_outliers lo hi b = Ok b' →
  in_range lo hi b' ∧ aligned b'.
Proof.
  unfold filter_outliers. fold (inliers lo hi (Rtim b)). intros H.
  inv_bind H as code Hc. inv_bind H as rtim Hr. inv_bind H as ntri Hn.
  injection H as <-. split.
  - by eapply gather_inliers.
  - split; simpl.
    + by rewrite (gather_length _ _ _ Hc), (gather_length _ _ _ Hr).
    + by rewrite (gather_length _ _ _ Hn), (gather_length _ _ _ Hr).
Qed.

Lemma filter_outliers_fixed lo hi b :
  in_range lo hi b → aligned b → filter_outliers lo hi b = Ok b.
Proof.
  intros Hr [Hc Hn]. unfold filter_outliers. fold (inliers lo hi (Rtim b)).
  rewrite inliers_all by done.
  rewrite <- Hc at 1. rewrite gather_all. simpl.
  rewrite gather_all. simpl.
  rewrite <- Hn. rewrite gather_all. simpl. by destruct b.
Qed.

Lemma gather_total {A} (l : list A) (ii : list nat) :
  Forall (λ i, (i < length l)%nat) ii → ∃ out, gather l ii = Ok out.
Proof.
  intros H. unfold gather.
  destruct (mapM_is_Some_2 (λ i, l !! i) ii) as [out ->]; [|eauto].
  eapply Forall_impl; [exact H|]. intros i Hi. by apply lookup_lt_is_Some_2.
Qed.

Lemma inliers_lt lo hi rtim :
  Forall (λ i, (i < length rtim)%nat) (inliers lo hi rtim).
Proof.
  apply Forall_forall. intros i Hi.
  apply elem_of_inliers in Hi as (rt & Hl & _). by eapply lookup_lt_Some.
Qed.

Lemma filter_outliers_total lo hi b :
  aligned b → ∃ b', filter_outliers lo hi b = Ok b'.
Proof.
  intros [Hc Hn]. unfold filter_outliers. fold (inliers lo hi (Rtim b)).
  pose proof (inliers_lt lo hi (Rtim b)) as Hlt.
  destruct (gather_total (Code b) (inliers lo hi (Rtim b))) as [code ->];
    [by rewrite Hc|].
  destruct (gather_total (Rtim b) (inliers lo hi (Rtim b))) as [rtim ->];
    [done|].
  destruct (gather_total (Ntri b) (inliers lo hi (Rtim b))) as [ntri ->];
    [by rewrite Hn|].
  simpl. eauto.
Qed.

(** ** [process_trial] *)

Lemma assemble_None qu : assemble qu = None ↔ malformed qu.
Proof.
  unfold malformed.
  destruct qu as [|q0 [|q1 [|q2 rest]]]; simpl;
    try (split; [intros _; left; lia | done]).
  destruct (Z.eqb_spec (srcode q0) 99) as [->|Hne]; simpl.
  - split; [done | intros [?|?]; [lia | done]].
  - split; [intros _; right; congruence | done].
Qed.

Lemma process_trial_appended qu block r :
  assemble qu = Some r →
  process_trial qu block = filter_outliers low high (appended block r).
Proof. unfold process_trial. intros ->. by destruct r as [[code rt] n]. Qed.

Lemma process_trial_Ok qu b b' :
  process_trial qu b = Ok b' →
  (assemble qu = None ∧ b' = b)
  ∨ (assemble qu ≠ None ∧ in_range low high b' ∧ aligned b').
Proof.
  unfold process_trial. destruct (assemble qu) as [[[code rt] n]|].
  - intros H%filter_outliers_Ok. right. split; [done | exact H].
  - intros [= <-]. by left.
Qed.

Lemma process_trial_total qu b :
  aligned b → ∃ b', process_trial qu b = Ok b'.
Proof.
  intros [Hc Hn]. unfold process_trial.
  destruct (assemble qu) as [[[code rt] n]|]; [|eauto].
  apply filter_outliers_total. split; simpl; rewrite !length_app; simpl; lia.
Qed.

(** ** The segmenter keeps its blocks aligned and in range *)

Lemma block_new_ok : block_ok Block_new.
Proof. split; [constructor | done]. Qed.

Lemma process_trial_ok qu b b' :
  block_ok b → process_trial qu b = Ok b' → block_ok b'.
Proof.
  intros Hb H. apply process_trial_Ok in H as [[_ ->] | (_ & Hr & Ha)]; [done|].
  by split.
Qed.

Lemma loop_body_ok st line st' :
  state_ok st → loop_body st line = Ok st' → state_ok st'.
Proof.
  intros [Hb Hd]. unfold loop_body.
  destruct (is_mark line); simpl; [|by intros [= <-]].
  destruct (kind line) as [fl|]; simpl; [|done].
  case_bool_decide; [by intros [= <-]|].
  case_bool_decide; simpl; [|by intros [= <-]].
  destruct (code_field line) as [stimcode|]; simpl; [|done].
  destruct (mode st).
  - destruct (_ && _ && _); by intros [= <-].
  - destruct (time_field line) as [t|]; simpl; [|done].
    destruct (_ || _).
    + destruct (0 <? dblock st).
      * intros Hs. inv_bind Hs as block' Hp. injection Hs as <-.
        split; simpl; [apply block_new_ok|].
        apply Forall_app. split; [done|]. constructor; [|done].
        by eapply process_trial_ok.
      * by intros [= <-].
    + destruct (stimcode =? 99).
      * intros Hs. inv_bind Hs as block' Hp. injection Hs as <-.
        split; simpl; [|done]. by eapply process_trial_ok.
      * by intros [= <-].
Qed.

Lemma run_from_ok rdr st st' :
  state_ok st → run_from st rdr = Ok st' → state_ok st'.
Proof.
  revert st. induction rdr as [|line rdr IH]; intros st Hst; simpl.
  - by intros [= <-].
  - intros H. inv_bind H as st1 H1. eapply IH; [|exact H].
    by eapply loop_body_ok.
Qed.

Lemma init_ok : state_ok init.
Proof. split; [apply block_new_ok | constructor]. Qed.

Lemma run_ok rdr st : run rdr = Ok st → state_ok st.
Proof. apply run_from_ok, init_ok. Qed.

Lemma run_from_app st rdr1 rdr2 :
  run_from st (rdr1 ++ rdr2) = run_from st rdr1 ≫= λ st', run_from st' rdr2.
Proof.
  revert st. induction rdr1 as [|line rdr1 IH]; intros st; simpl; [done|].
  destruct (loop_body st line) as [st1|]; simpl; [apply IH | done].
Qed.

(** ** [Block.query] *)

Lemma query_keep_Ok self side congruent correct lastcorrect j c x :
  Code self !! j = Some c →
  query_keep self side congruent correct lastcorrect (j, (c, x))
  = Ok (keeps self side congruent correct lastcorrect (j, (c, x))).
Proof.
  intros Hj. unfold query_keep, keeps, attrs_pass. simpl.
  destruct side as [s|];
    [rewrite bool_decide_not; destruct (bool_decide (Code.side c = s))|];
    simpl; [|done|];
  (destruct congruent as [g|];
    [rewrite bool_decide_not; destruct (bool_decide (Code.congruent c = g))|];
    simpl; [|done|]);
  (destruct correct as [r|];
    [rewrite bool_decide_not; destruct (bool_decide (Code.correct c = r))|];
    simpl; [|done|]);
  (destruct lastcorrect as [lc|]; [|done]);
  (destruct j as [|j']; simpl; [done|]);
  rewrite Nat.sub_0_r; unfold index;
  (destruct (Code self !! j') as [p|] eqn:Hp; simpl;
   [rewrite bool_decide_not; by destruct (bool_decide (Code.correct p = lc))
   |apply lookup_ge_None in Hp; apply lookup_lt_Some in Hj; lia]).
Qed.

Lemma query_loop_Ok keep (keepb : nat * (Code.t * Z) → bool) items :
  (∀ it, it ∈ items → keep it = Ok (keepb it)) →
  query_loop keep items = Ok (filter (λ it, keepb it = true) items).
Proof.
  induction items as [|it items IH]; intros Hk; simpl; [done|].
  rewrite Hk by left. simpl. rewrite IH by (intros; apply Hk; by right). simpl.
  rewrite filter_cons. destruct (keepb it); by destruct (decide _).
Qed.

Lemma query_kept_Ok self side congruent correct lastcorrect :
  query_kept self side congruent correct lastcorrect
  = Ok (filter (λ it, keeps self side congruent correct lastcorrect it = true)
               (enumerate (zip (Code self) (Rtim self)))).
Proof.
  apply query_loop_Ok. intros [j [c x]] Hin.
  apply elem_of_enumerate, lookup_zip_Some in Hin as [Hc _].
  by apply query_keep_Ok.
Qed.

Lemma query_Ok self side congruent correct lastcorrect :
  query self side congruent correct lastcorrect
  = Ok (map (λ it : nat * (Code.t * Z), it.2.2)
          (filter (λ it, keeps self side congruent correct lastcorrect it = true)
                  (enumerate (zip (Code self) (Rtim self))))).
Proof. unfold query. by rewrite query_kept_Ok. Qed.

Lemma elem_of_kept self side congruent correct lastcorrect j c x :
  (j, (c, x)) ∈ filter (λ it, keeps self side congruent correct lastcorrect it = true)
                       (enumerate (zip (Code self) (Rtim self)))
  ↔ Code self !! j = Some c ∧ Rtim self !! j = Some x
    ∧ attrs_pass side congruent correct c = true
    ∧ prev_pass self lastcorrect j = true.
Proof.
  rewrite list_elem_of_filter, elem_of_enumerate, lookup_zip_Some.
  unfold keeps. simpl. rewrite andb_true_iff. tauto.
Qed.

(** ** [collapse_blocks] and queries without [lastcorrect] *)

Lemma collapse_blocks_from data acc :
  fold_left (λ blk block,
               mkBlock (Code blk ++ Code block)
                       (Rtim blk ++ Rtim block)
                       (Ntri blk ++ Ntri block)) data acc
  = mkBlock (Code acc ++ concat (Code <$> data))
            (Rtim acc ++ concat (Rtim <$> data))
            (Ntri acc ++ concat (Ntri <$> data)).
Proof.
  revert acc. induction data as [|b data IH]; intros acc; simpl.
  - rewrite !app_nil_r. by destruct acc.
  - rewrite IH. simpl. by rewrite <- !app_assoc.
Qed.

Lemma collapse_blocks_concat data :
  collapse_blocks data
  = mkBlock (concat (Code <$> data)) (concat (Rtim <$> data)) (concat (Ntri <$> data)).
Proof. unfold collapse_blocks. by rewrite collapse_blocks_from. Qed.

Lemma kept_unconditioned self side congruent correct k (l : list (Code.t * Z)) :
  map (λ it : nat * (Code.t * Z), it.2.2)
      (filter (λ it, keeps self side congruent correct None it = true)
              (enumerate_from k l))
  = (filter (λ kx : Code.t * Z, attrs_pass side congruent correct kx.1 = true) l).*2.
Proof.
  revert k. induction l as [|[c x] l IH]; intros k; simpl; [done|].
  destruct (attrs_pass side congruent correct c) eqn:Ha.
  - rewrite !filter_cons_True by (unfold keeps; simpl; by rewrite Ha).
    simpl. by rewrite IH.
  - rewrite !filter_cons_False by (unfold keeps; simpl; by rewrite Ha).
    by rewrite IH.
Qed.

Lemma query_unconditioned self side congruent correct :
  query self side congruent correct None
  = Ok (selected side congruent correct (Code self) (Rtim self)).
Proof. rewrite query_Ok. unfold enumerate, selected. by rewrite kept_unconditioned. Qed.

Lemma query_each_unconditioned data side congruent correct :
  query_each data side congruent correct None
  = Ok ((λ b, selected side congruent correct (Code b) (Rtim b)) <$> data).
Proof.
  induction data as [|b data IH]; simpl; [done|].
  by rewrite query_unconditioned, IH.
Qed.

Lemma selected_app side congruent correct c1 c2 r1 r2 :
  length c1 = length r1 →
  selected side congruent correct (c1 ++ c2) (r1 ++ r2)
  = selected side congruent correct c1 r1 ++ selected side congruent correct c2 r2.
Proof.
  intros Hl. unfold selected. rewrite zip_with_app by done.
  by rewrite filter_app, fmap_app.
Qed.

Lemma selected_concat side congruent correct data :
  Forall paired data →
  selected side congruent correct (concat (Code <$> data)) (concat (Rtim <$> data))
  = concat ((λ b, selected side congruent correct (Code b) (Rtim b)) <$> data).
Proof.
  induction 1 as [|b data Hc _ IH]; [done|].
  rewrite !fmap_cons. cbn [concat]. by rewrite selected_app, IH.
Qed.

(** ** The practice gate of the segmenter *)

Lemma count99_app cs1 cs2 : count99 (cs1 ++ cs2) = (count99 cs1 + count99 cs2)%nat.
Proof. unfold count99. by rewrite filter_app, length_app. Qed.

Lemma count99_cons c cs :
  count99 (c :: cs) = ((if (c =? 99)%Z then 1 else 0) + count99 cs)%nat.
Proof.
  unfold count99. rewrite filter_cons.
  destruct (Z.eqb_spec c 99); destruct (decide _); simpl; congruence.
Qed.

Lemma seen144_snoc cs c :
  seen144 (cs ++ [c]) ↔ seen144 cs ∨ (c = 144 ∧ count99 cs = 3%nat).
Proof.
  split.
  - intros (p1 & p2 & Heq & Hn).
    destruct (decide (p2 = [])) as [-> | Hne].
    + apply app_inj_tail in Heq as [-> ->]. by right.
    + destruct (exists_last Hne) as (p2' & c' & ->).
      change (p1 ++ 144 :: p2' ++ [c']) with (p1 ++ (144 :: p2') ++ [c']) in Heq.
      rewrite app_assoc in Heq. apply app_inj_tail in Heq as [-> ->].
      left. by exists p1, p2'.
  - intros [(p1 & p2 & -> & Hn) | [-> Hn]].
    + exists p1, (p2 ++ [c]). by rewrite <- app_assoc.
    + by exists cs, [].
Qed.

Lemma armed_iff pre : armed pre ↔ seen144 pre ∧ count99 pre = 3%nat.
Proof.
  split.
  - intros (p1 & p2 & -> & H1 & H2). split; [by exists p1, p2|].
    rewrite count99_app, count99_cons. simpl. lia.
  - intros [(p1 & p2 & -> & H1) H3]. exists p1, p2.
    rewrite count99_app, count99_cons in H3. simpl in H3.
    repeat split; [done | lia].
Qed.

Lemma fires_take cs n j : fires (take n cs) j ↔ fires cs j ∧ (j < n)%nat.
Proof.
  unfold fires. split.
  - intros [Hl Ha]. apply lookup_take_Some in Hl as [Hl Hlt].
    rewrite take_take, Nat.min_l in Ha by lia. done.
  - intros [[Hl Ha] Hlt]. rewrite lookup_take_lt by done.
    by rewrite take_take, Nat.min_l by lia.
Qed.

Lemma fires_lt cs j : fires cs j → (j < length cs)%nat.
Proof. intros [Hl _]. by eapply lookup_lt_Some. Qed.

Lemma fires_snoc cs c j :
  fires (cs ++ [c]) j ↔ fires cs j ∨ (j = length cs ∧ c = 255 ∧ armed cs).
Proof.
  unfold fires. destruct (Nat.lt_trichotomy j (length cs)) as [Hlt | [-> | Hgt]].
  - rewrite lookup_app_l, take_app_le by lia. split; [by left|].
    intros [?|[? _]]; [done | lia].
  - rewrite list_lookup_middle, take_app_length by done. split.
    + intros [[= ->] Ha]. by right.
    + intros [[Hl _] | (_ & -> & Ha)]; [|done].
      apply lookup_lt_Some in Hl. lia.
  - split.
    + intros [Hl _]. apply lookup_lt_Some in Hl. rewrite length_app in Hl.
      simpl in Hl. lia.
    + intros [[Hl _] | [? _]]; [apply lookup_lt_Some in Hl|]; lia.
Qed.

Lemma stream_snoc ms m :
  stream (ms ++ [m]) = stream ms ++ [stimulus (srcode m) (time m)].
Proof. unfold stream. by rewrite fmap_app. Qed.

Lemma run_snoc rdr line : run (rdr ++ [line]) = run rdr ≫= λ st, loop_body st line.
Proof.
  unfold run. rewrite run_from_app. destruct (run_from init rdr) as [st|]; simpl; [|done].
  by destruct (loop_body st line).
Qed.

(** One stimulus row in practice mode *)
Lemma loop_body_practice st c t :
  mode st = practice →
  loop_body st (stimulus c t)
  = let n99' := if c =? 99 then n99 st + 1 else n99 st in
    let n144' := if (n99' =? 3) && (c =? 144) then true else n144 st in
    Ok (mkState (blocknum st) (dblock st)
          (if (n99' =? 3) && n144' && (c =? 255) then experiment else practice)
          n99' n144' (qu st) (data st) (block st)).
Proof.
  intros Hm. unfold loop_body. simpl. rewrite Hm.
  by destruct (_ && _ && _).
Qed.

(** One stimulus row in experiment mode *)
Lemma loop_body_experiment st c t :
  mode st = experiment → state_ok st →
  ∃ st', loop_body st (stimulus c t) = Ok st' ∧ mode st' = experiment.
Proof.
  intros Hm [[_ Hal] _]. unfold loop_body. simpl. rewrite Hm.
  destruct (process_trial_total
              (but_last (qu st ++ [mkTrial c t])) (block st) Hal) as [b' Hb'].
  destruct (_ || _).
  - destruct (0 <? dblock st); [rewrite Hb'|]; simpl; eauto.
  - destruct (c =? 99); [rewrite Hb'|]; simpl; eauto.
Qed.

Lemma first_fires_snoc cs c j : first_fires cs j → first_fires (cs ++ [c]) j.
Proof.
  intros [Hf Hmin]. split; [apply fires_snoc; by left|].
  intros j' Hlt [Hf' | [-> _]]%fires_snoc; [by eapply Hmin|].
  apply fires_lt in Hf. lia.
Qed.

(** Where the segmenter stands after any stream of stimulus markers *)
Lemma run_stream_cases ms :
  ∃ st, run (stream ms) = Ok st ∧ state_ok st ∧
    ((mode st = practice ∧ fresh st
      ∧ n99 st = Z.of_nat (count99 (codes ms))
      ∧ (n144 st = true ↔ seen144 (codes ms))
      ∧ ∀ j, ¬ fires (codes ms) j)
     ∨ (mode st = experiment ∧ ∃ j, first_fires (codes ms) j)).
Proof.
  induction ms as [|m ms IH] using rev_ind.
  - exists init. split; [done|]. split; [apply init_ok|]. left.
    repeat split; try done.
    + intros (p1 & p2 & Heq & _). by destruct p1.
    + intros j [Hl _]. unfold codes in Hl. by rewrite fmap_nil, lookup_nil in Hl.
  - destruct IH as (st & Hrun & Hok & Hcase).
    rewrite stream_snoc, run_snoc, Hrun. simpl.
    unfold codes in *. rewrite fmap_app. simpl.
    set (cs := srcode <$> ms) in *. set (c := srcode m).
    destruct Hcase as [(Hm & Hfresh & Hn99 & Hn144 & Hno) | (Hm & j & Hj)].
    + rewrite loop_body_practice by done. cbv zeta.
      eexists. split; [reflexivity|].
      split; [destruct Hok; by split|]. simpl.
      destruct (decide (c = 255 ∧ n99 st = 3 ∧ n144 st = true))
        as [(Hc & H3 & H144) | Hnot].
      * right. rewrite Hc, H3, H144. simpl. split; [done|].
        exists (length cs). split.
        -- apply fires_snoc. right. split; [done|]. split; [done|].
           apply armed_iff. split; [by apply Hn144 | lia].
        -- intros j' Hlt [Hf | [-> _]]%fires_snoc; [by eapply Hno | lia].
      * left.
        assert (Hgate : ((if c =? 99 then n99 st + 1 else n99 st) =? 3) = true →
                        (if ((if c =? 99 then n99 st + 1 else n99 st) =? 3)
                             && (c =? 144) then true else n144 st) = true →
                        (c =? 255) = true → False).
        { intros H1 H2 H3. apply Z.eqb_eq in H3.
          rewrite H3 in H1, H2. simpl in H1, H2. rewrite andb_false_r in H2.
          apply Z.eqb_eq in H1. by apply Hnot. }
        destruct (_ && _ && _) eqn:Hg.
        { apply andb_true_iff in Hg as [[H1 H2]%andb_true_iff H3]. by destruct Hgate. }
        clear Hgate Hg. split; [done|]. split; [exact Hfresh|].
        split; [|split].
        -- rewrite count99_app, count99_cons. unfold count99 at 2. simpl.
           destruct (c =? 99); lia.
        -- rewrite seen144_snoc, <- Hn144.
           destruct (Z.eqb_spec c 144) as [Hc|Hc].
           ++ rewrite Hc. simpl.
              destruct (Z.eqb_spec (n99 st) 3) as [H3|H3]; simpl.
              ** split; [intros _; right; split; [done | lia] | done].
              ** split; [by left | intros [? | [_ ?]]; [done | lia]].
           ++ rewrite andb_false_r. split; [by left | intros [?|[? _]]; done].
        -- intros j [Hf | (_ & Hc & Ha)]%fires_snoc; [by eapply Hno|].
           apply armed_iff in Ha as [Hs H3]. apply Hnot.
           split; [done|]. split; [lia | by apply Hn144].
    + destruct (loop_body_experiment st c (time m) Hm Hok) as (st' & Hst' & Hm').
      exists st'. split; [done|]. split; [by eapply loop_body_ok|].
      right. split; [done|]. exists j. by apply first_fires_snoc.
Qed.

(** ** [summarize_vmrk] *)

Lemma query_queried self side congruent correct lastcorrect :
  query self side congruent correct lastcorrect
  = Ok (queried self side congruent correct lastcorrect).
Proof. apply query_Ok. Qed.

Lemma query_each_queried data side congruent correct lastcorrect :
  query_each data side congruent correct lastcorrect
  = Ok (queried_each data side congruent correct lastcorrect).
Proof.
  induction data as [|b data IH]; simpl; [done|].
  by rewrite query_queried, IH.
Qed.

Lemma true_div_zero a : true_div a 0 = Raise ZeroDivisionError.
Proof. done. Qed.

Lemma true_div_nonzero a b : b ≠ 0 → true_div a b = Ok (inject_Z a / inject_Z b)%Q.
Proof. intros Hb. unfold true_div. by destruct (Z.eqb_spec b 0). Qed.

(** Run the queries of [summarize_vmrk] and split on its five divisions *)
Ltac summarize_cases filename data :=
  unfold summarize_vmrk;
  rewrite ?query_queried, ?query_each_queried; cbn [mbind res_bind];
  fold (den_facc data);
  destruct (decide (den_facc data = 0)) as [Hd1|Hd1];
  [rewrite Hd1, true_div_zero
  |rewrite (true_div_nonzero _ _ Hd1); cbn [mbind res_bind];
   fold (den_fcacc data);
   destruct (decide (den_fcacc data = 0)) as [Hd2|Hd2];
   [rewrite Hd2, true_div_zero
   |rewrite (true_div_nonzero _ _ Hd2); cbn [mbind res_bind];
    fold (den_fiacc data);
    destruct (decide (den_fiacc data = 0)) as [Hd3|Hd3];
    [rewrite Hd3, true_div_zero
    |rewrite (true_div_nonzero _ _ Hd3); cbn [mbind res_bind];
     fold (den_faccpc data);
     destruct (decide (den_faccpc data = 0)) as [Hd4|Hd4];
     [rewrite Hd4, true_div_zero
     |rewrite (true_div_nonzero _ _ Hd4); cbn [mbind res_bind];
      fold (den_faccpe data);
      destruct (decide (den_faccpe data = 0)) as [Hd5|Hd5];
      [rewrite Hd5, true_div_zero
      |rewrite (true_div_nonzero _ _ Hd5); cbn [mbind res_bind]]]]]].

Lemma summarize_vmrk_raises filename data :
  den_facc data = 0 ∨ den_fcacc data = 0 ∨ den_fiacc data = 0
  ∨ den_faccpc data = 0 ∨ den_faccpe data = 0 →
  summarize_vmrk filename data = Raise ZeroDivisionError.
Proof.
  intros Hden. summarize_cases filename data; try done.
  exfalso. tauto.
Qed.

(** * The claims of the specification *)

(** ** Outlier filter *)

(** C9.  For every block and every pair of bounds, running
    [filter_outliers] a second time with the same bounds changes nothing:
    two runs in a row end exactly as one run does (the same block, or the
    same [IndexError] when the three lists of the block are out of step). *)
Theorem filter_outliers_idempotent (lo hi : Z) (b : Block) :
  filter_outliers lo hi b ≫= filter_outliers lo hi = filter_outliers lo hi b.
Proof.
  destruct (filter_outliers lo hi b) as [b'|e] eqn:Hb; simpl; [|done].
  apply filter_outliers_Ok in Hb as [Hr Ha].
  by apply filter_outliers_fixed.
Qed.

(** ** Trial assembler *)

(** C7.  For every trial window [qu] and block: no record is produced
    exactly when the window has fewer than 3 markers or does not start with
    code 99, and then the block is left as it is; otherwise the record that
    is appended has a response time of exactly twice the time of the third
    marker minus the time of the second (no clamping) and a size equal to
    the length of the window. *)
Theorem process_trial_record (qu : list Trial) (block : Block) :
  (assemble qu = None ↔ malformed qu)
  ∧ (malformed qu → process_trial qu block = Ok block)
  ∧ (¬ malformed qu →
     ∃ q1 q2 code,
       qu !! 1%nat = Some q1 ∧ qu !! 2%nat = Some q2
       ∧ assemble qu = Some (code, 2 * (time q2 - time q1), len qu)
       ∧ process_trial qu block
         = filter_outliers low high
             (mkBlock (Code block ++ [code])
                      (Rtim block ++ [2 * (time q2 - time q1)])
                      (Ntri block ++ [len qu]))).
Proof.
  split; [apply assemble_None|]. split.
  - intros H%assemble_None. unfold process_trial. by rewrite H.
  - intros Hwf. rewrite <- assemble_None in Hwf.
    destruct qu as [|q0 [|q1 [|q2 rest]]]; try done.
    exists q1, q2, (Code.fromSRCodes (srcode q1) (srcode q2)).
    split; [done|]. split; [done|].
    assert (Ha : assemble (q0 :: q1 :: q2 :: rest)
                 = Some (Code.fromSRCodes (srcode q1) (srcode q2),
                         2 * (time q2 - time q1), len (q0 :: q1 :: q2 :: rest))).
    { revert Hwf. unfold assemble. by destruct (negb _). }
    split; [done|]. by rewrite (process_trial_appended _ _ _ Ha).
Qed.

(** A window with unordered timestamps: the response time is negative. *)
Lemma process_trial_record_witness :
  ¬ malformed [mkTrial 99 0; mkTrial 1 50; mkTrial 5 20; mkTrial 7 60]
  ∧ ∃ q1 q2 code,
      assemble [mkTrial 99 0; mkTrial 1 50; mkTrial 5 20; mkTrial 7 60]
      = Some (code, 2 * (time q2 - time q1), 4)
      ∧ 2 * (time q2 - time q1) = -60.
Proof.
  assert (Hwf : ¬ malformed [mkTrial 99 0; mkTrial 1 50; mkTrial 5 20; mkTrial 7 60]).
  { intros [Hlen | Hhd]; [simpl in Hlen; lia | by apply Hhd]. }
  split; [exact Hwf|].
  destruct (proj2 (proj2 (process_trial_record
              [mkTrial 99 0; mkTrial 1 50; mkTrial 5 20; mkTrial 7 60]
              Block_new)) Hwf)
    as (q1 & q2 & code & H1 & H2 & Ha & _).
  exists q1, q2, code. split; [exact Ha|].
  injection H1 as <-. injection H2 as <-. reflexivity.
Defined.

(** ** Block invariant *)

Lemma run_in_range rdr st :
  run rdr = Ok st →
  in_range low high (block st) ∧ Forall (in_range low high) (data st).
Proof.
  intros [[Hb _] Hd]%run_ok. split; [done|].
  eapply Forall_impl; [exact Hd|]. by intros b [? _].
Qed.

Lemma process_vmrk_in_range rdr data :
  process_vmrk rdr = Ok data → Forall (in_range low high) data.
Proof.
  unfold process_vmrk. intros H.
  inv_bind H as st Hst. inv_bind H as b Hb. injection H as <-.
  exact (proj2 (run_in_range _ _ Hst)).
Qed.

(** C6.  Every insertion through [process_trial] leaves every response time
    of the block in [[low, high]] = [[150, 3000]], whatever the block was;
    a call that inserts nothing keeps a block that was in range in range;
    hence every block the segmenter holds after any prefix of the rows, and
    every block of the dataset returned by [process_vmrk], is in range. *)
Theorem retained_in_range :
  (∀ qu b b', process_trial qu b = Ok b' →
              ¬ malformed qu ∨ in_range 150 3000 b → in_range 150 3000 b')
  ∧ (∀ rdr st, run rdr = Ok st →
               in_range 150 3000 (block st)
               ∧ Forall (in_range 150 3000) (data st))
  ∧ (∀ rdr data, process_vmrk rdr = Ok data → Forall (in_range 150 3000) data).
Proof.
  split; [|split].
  - intros qu b b' H Hcase.
    apply process_trial_Ok in H as [[Hn ->] | (_ & Hr & _)]; [|done].
    destruct Hcase as [Hwf | Hr]; [|done]. by apply assemble_None in Hn.
  - exact run_in_range.
  - exact process_vmrk_in_range.
Qed.

(** ** Collapsed view *)

(** C8.  For every dataset whose blocks hold as many codes as response
    times, and every combination of side/congruent/correct with
    [lastcorrect] unset, the query on the collapsed dataset returns the
    concatenation, in block order, of the per-block query results. *)
Theorem query_collapse_blocks (data : list Block) (side : option string)
    (congruent correct : option bool) :
  Forall paired data →
  query (collapse_blocks data) side congruent correct None
  = @concat Z <$> query_each data side congruent correct None.
Proof.
  intros Hal. rewrite query_unconditioned, query_each_unconditioned.
  rewrite collapse_blocks_concat. simpl. by rewrite selected_concat.
Qed.

(** Two blocks, and the same query on both sides *)
Lemma query_collapse_blocks_witness :
  Forall paired [mkBlock [Code.mk "left" true true; Code.mk "right" false false]
                         [200; 300] [3; 3];
                 mkBlock [Code.mk "right" true true] [400] [4]]
  ∧ query (collapse_blocks
             [mkBlock [Code.mk "left" true true; Code.mk "right" false false]
                      [200; 300] [3; 3];
              mkBlock [Code.mk "right" true true] [400] [4]])
          None None (Some true) None
    = Ok [200; 400].
Proof.
  assert (Hal : Forall paired
            [mkBlock [Code.mk "left" true true; Code.mk "right" false false]
                     [200; 300] [3; 3];
             mkBlock [Code.mk "right" true true] [400] [4]]).
  { repeat constructor. }
  split; [exact Hal|].
  rewrite (query_collapse_blocks _ None None (Some true) Hal). reflexivity.
Defined.

(** With [lastcorrect] set the two sides differ: in the collapsed view the
    first record of the second block is tested against the last record of
    the first. *)
Example query_collapse_blocks_lastcorrect :
  query (collapse_blocks [mkBlock [Code.mk "left" true false] [200] [3];
                          mkBlock [Code.mk "left" true true] [300] [3]])
        None None None (Some true) = Ok [200]
  ∧ @concat Z <$> query_each [mkBlock [Code.mk "left" true false] [200] [3];
                              mkBlock [Code.mk "left" true true] [300] [3]]
                             None None None (Some true) = Ok [200; 300].
Proof. split; reflexivity. Qed.

(** ** Conditioning on the previous record *)

(** C1 fails on the code: the only record of [one_trial] is returned by a
    [lastcorrect] query, for either value of the filter. *)
Lemma excludes_first_counterexample :
  query one_trial None None None (Some false) = Ok [200]
  ∧ query one_trial None None None (Some true) = Ok [200]
  ∧ ¬ excludes_first one_trial None None None false.
Proof.
  split; [reflexivity|]. split; [reflexivity|].
  intros H.
  apply (H [(0%nat, (Code.mk "left" true true, 200))] eq_refl
           (0%nat, (Code.mk "left" true true, 200))); [by left | done].
Qed.

(** C1, amended.  For every block and every [X], the query with
    [lastcorrect = X] never raises, and it keeps the record at index [j]
    exactly when the record passes the side/congruent/correct tests and
    either [j = 0] or the record at [j - 1] has [correct = X]: the first
    record is exempt from the [lastcorrect] test, not excluded by it. *)
Theorem query_lastcorrect_first_exempt (self : Block) (side : option string)
    (congruent correct : option bool) (X : bool) :
  ∃ kept,
    query_kept self side congruent correct (Some X) = Ok kept
    ∧ query self side congruent correct (Some X)
      = Ok (map (λ it : nat * (Code.t * Z), it.2.2) kept)
    ∧ ∀ j c x,
        (j, (c, x)) ∈ kept
        ↔ Code self !! j = Some c ∧ Rtim self !! j = Some x
          ∧ attrs_pass side congruent correct c = true
          ∧ match j with
            | O => True
            | S j' => ∃ p, Code self !! j' = Some p ∧ Code.correct p = X
            end.
Proof.
  eexists. split; [apply query_kept_Ok|]. split; [apply query_Ok|].
  intros j c x. rewrite elem_of_kept.
  assert (Hprev : prev_pass self (Some X) j = true
                  ↔ match j with
                    | O => True
                    | S j' => ∃ p, Code self !! j' = Some p ∧ Code.correct p = X
                    end).
  { destruct j as [|j']; simpl; [done|].
    destruct (Code self !! j') as [p|].
    - rewrite bool_decide_eq_true. split; [eauto|].
      by intros (p' & [= <-] & Hp).
    - split; [done | by intros (p' & ? & _)]. }
  rewrite Hprev. tauto.
Qed.

(** ** End-to-end scenario A *)

(** C2 fails on the code: with a raw delta of 10 the record has a response
    time of 20, below [low], and the filter removes it at once; the dataset
    is one block without any record. *)
Lemma scenario_A_counterexample :
  process_vmrk (scenario_A 1 2 3 4 5 6 7 10 18) = Ok [mkBlock [] [] []]
  ∧ ¬ yields_one_record (scenario_A 1 2 3 4 5 6 7 10 18)
        (Code.mk "left" true true) 20.
Proof.
  split; [reflexivity|].
  intros (data & Hp & Hc & _).
  assert (Hd : data = [mkBlock [] [] []]) by (vm_compute in Hp; congruence).
  subst data. discriminate Hc.
Qed.

Lemma filter_outliers_single lo hi c rt n :
  filter_outliers lo hi (mkBlock [c] [rt] [n])
  = Ok (if bool_decide (lo ≤ rt ∧ rt ≤ hi) then mkBlock [c] [rt] [n] else Block_new).
Proof.
  unfold filter_outliers, enumerate. simpl. rewrite filter_cons. simpl.
  case_bool_decide; destruct (decide _); done.
Qed.

(** C2, amended.  For every choice of timestamps, scenario A yields a
    dataset of exactly one block.  The assembled record has side left,
    congruent and correct both true, and a response time of twice the raw
    delta [d]; the block retains it exactly when that response time lies in
    [[150, 3000]], that is when [75 <= d <= 1500].  With [d = 10] the
    response time is 20 and the block is empty. *)
Theorem scenario_A_dataset (t1 t2 t3 t4 t5 t6 t7 d t9 : Z) :
  process_vmrk (scenario_A t1 t2 t3 t4 t5 t6 t7 d t9)
  = Ok [if bool_decide (75 ≤ d ∧ d ≤ 1500)
        then mkBlock [Code.mk "left" true true] [2 * d] [3]
        else mkBlock [] [] []].
Proof.
  set (B := if bool_decide (low ≤ 2 * (t7 + d - t7) ∧ 2 * (t7 + d - t7) ≤ high)
            then mkBlock [Code.mk "left" true true] [2 * (t7 + d - t7)] [3]
            else Block_new).
  assert (Hrun : run [stimulus 99 t1; stimulus 99 t2; stimulus 99 t3;
                      stimulus 144 t4; stimulus 255 t5;
                      stimulus 99 t6; stimulus 1 t7; stimulus 5 (t7 + d)]
                 = Ok (mkState 0 3 experiment 3 true
                         [mkTrial 99 t6; mkTrial 1 t7; mkTrial 5 (t7 + d)]
                         [] Block_new)) by reflexivity.
  assert (Hstep : loop_body (mkState 0 3 experiment 3 true
                               [mkTrial 99 t6; mkTrial 1 t7; mkTrial 5 (t7 + d)]
                               [] Block_new) (stimulus 144 t9)
                  = Ok (mkState 1 0 experiment 3 true [mkTrial 144 t9] [B] Block_new)).
  { unfold loop_body. simpl. unfold process_trial. simpl.
    change (Code.fromSRCodes 1 5) with (Code.mk "left" true true).
    rewrite filter_outliers_single. cbn [mbind res_bind].
    change (only_last _) with [mkTrial 144 t9].
    change (len (but_last _)) with 3.
    change (0 + 1) with 1. reflexivity. }
  assert (Hall : process_vmrk (scenario_A t1 t2 t3 t4 t5 t6 t7 d t9) = Ok [B]).
  { unfold process_vmrk, scenario_A.
    change [stimulus 99 t1; stimulus 99 t2; stimulus 99 t3; stimulus 144 t4;
            stimulus 255 t5; stimulus 99 t6; stimulus 1 t7; stimulus 5 (t7 + d);
            stimulus 144 t9]
      with ([stimulus 99 t1; stimulus 99 t2; stimulus 99 t3; stimulus 144 t4;
             stimulus 255 t5; stimulus 99 t6; stimulus 1 t7; stimulus 5 (t7 + d)]
            ++ [stimulus 144 t9]).
    rewrite run_snoc, Hrun. cbn [mbind res_bind]. rewrite Hstep. reflexivity. }
  rewrite Hall. subst B.
  replace (2 * (t7 + d - t7)) with (2 * d) by lia.
  unfold low, high.
  rewrite (bool_decide_ext (150 ≤ 2 * d ∧ 2 * d ≤ 3000) (75 ≤ d ∧ d ≤ 1500)) by lia.
  reflexivity.
Qed.

(** ** Practice gating *)

Lemma codes_take n ms : codes (take n ms) = take n (codes ms).
Proof. unfold codes. by rewrite fmap_take. Qed.

Lemma loop_body_practice_fresh st c t st' :
  mode st = practice → fresh st → loop_body st (stimulus c t) = Ok st' → fresh st'.
Proof.
  intros Hm Hf. rewrite loop_body_practice by done. cbv zeta.
  intros [= <-]. exact Hf.
Qed.

(** C3 fails on the code: after a fourth 99 the counter [n99] is no longer
    equal to 3, so the 144 and the 255 that follow do not open the gate and
    the segmenter stays in practice mode. *)
Lemma gate_as_specified_counterexample :
  first_fires_spec [99; 99; 99; 99; 144; 255] 5
  ∧ ¬ transition_at [mkTrial 99 0; mkTrial 99 1; mkTrial 99 2; mkTrial 99 3;
                     mkTrial 144 4; mkTrial 255 5] 5
  ∧ ¬ gate_as_specified.
Proof.
  assert (Hspec : first_fires_spec [99; 99; 99; 99; 144; 255] 5).
  { split.
    - split; [reflexivity|]. exists [99; 99; 99; 99], [].
      split; [reflexivity|]. vm_compute. lia.
    - intros j Hlt [Hl _].
      do 5 (destruct j as [|j]; [discriminate Hl|]). lia. }
  assert (Hcode : ¬ transition_at
            [mkTrial 99 0; mkTrial 99 1; mkTrial 99 2; mkTrial 99 3;
             mkTrial 144 4; mkTrial 255 5] 5).
  { intros (st & st' & _ & Hrun & _ & _ & Hm).
    vm_compute in Hrun. injection Hrun as <-. discriminate Hm. }
  split; [exact Hspec|]. split; [exact Hcode|].
  intros H. apply Hcode. apply H. exact Hspec.
Qed.

(** C3, amended.  For every stream of stimulus markers, the segmenter leaves
    practice mode exactly on the first 255 that arrives while the count of
    99s is exactly three and a 144 has arrived under that same count (a
    fourth 99 before the 255 closes the gate for good).  The 255 that
    triggers the transition is not appended to the window, and as long as
    the segmenter is in practice mode nothing is buffered: window and dataset
    are empty and the current block has no record. *)
Theorem practice_gate (ms : list Trial) (i : nat) :
  (transition_at ms i ↔ first_fires (codes ms) i)
  ∧ (∃ st, run (stream ms) = Ok st ∧ (mode st = practice → fresh st))
  ∧ (∀ st', transition_at ms i →
            run (stream (take (S i) ms)) = Ok st' → fresh st').
Proof.
  split; [|split].
  - split.
    + intros (st & st' & Hrun & Hrun' & Hlt & Hm & Hm').
      destruct (run_stream_cases (take (S i) ms))
        as (st2 & Hrun2 & _ & [(Hp & _) | (_ & j & Hj)]);
        rewrite Hrun' in Hrun2; injection Hrun2 as <-; [congruence|].
      destruct (run_stream_cases (take i ms))
        as (st1 & Hrun1 & _ & [(_ & _ & _ & _ & Hno) | (He & _)]);
        rewrite Hrun in Hrun1; injection Hrun1 as <-; [|congruence].
      rewrite codes_take in Hj, Hno. destruct Hj as [Hf Hmin].
      apply fires_take in Hf as [Hf Hji].
      assert (j = i) as ->.
      { destruct (decide (j < i)%nat) as [Hlt'|]; [|lia].
        destruct (Hno j). by apply fires_take. }
      split; [done|]. intros j' Hj' Hf'. apply (Hno j'). by apply fires_take.
    + intros [Hf Hmin]. pose proof (fires_lt _ _ Hf) as Hlt.
      unfold codes in Hlt. rewrite length_fmap in Hlt.
      destruct (run_stream_cases (take i ms))
        as (st & Hrun & _ & [(Hp & _) | (_ & j & [Hj _])]).
      2:{ rewrite codes_take in Hj. apply fires_take in Hj as [Hj Hji].
          by destruct (Hmin j). }
      destruct (run_stream_cases (take (S i) ms))
        as (st' & Hrun' & _ & [(_ & _ & _ & _ & Hno) | (He & _)]).
      { rewrite codes_take in Hno. destruct (Hno i). apply fires_take.
        split; [done | lia]. }
      by exists st, st'.
  - destruct (run_stream_cases ms)
      as (st & Hrun & _ & [(_ & Hf & _) | (He & _)]); exists st.
    + by split.
    + split; [done | congruence].
  - intros st' (st & st2 & Hrun & _ & Hlt & Hm & _) Hrun'.
    destruct (run_stream_cases (take i ms))
      as (st1 & Hrun1 & _ & [(_ & Hf & _) | (He & _)]);
      rewrite Hrun in Hrun1; injection Hrun1 as <-; [|congruence].
    destruct (lookup_lt_is_Some_2 ms i Hlt) as [m Hmi].
    rewrite (take_S_r _ _ _ Hmi), stream_snoc, run_snoc, Hrun in Hrun'.
    by eapply loop_body_practice_fresh.
Qed.

(** The gate opens on the 255 of the plain gating sequence. *)
Lemma practice_gate_witness :
  first_fires (codes [mkTrial 99 1; mkTrial 99 2; mkTrial 99 3; mkTrial 144 4;
                      mkTrial 255 5; mkTrial 99 6]) 4
  ∧ transition_at [mkTrial 99 1; mkTrial 99 2; mkTrial 99 3; mkTrial 144 4;
                   mkTrial 255 5; mkTrial 99 6] 4.
Proof.
  assert (Hf : first_fires
                 (codes [mkTrial 99 1; mkTrial 99 2; mkTrial 99 3; mkTrial 144 4;
                         mkTrial 255 5; mkTrial 99 6]) 4).
  { split.
    - split; [reflexivity|]. exists [99; 99; 99], [].
      split; [reflexivity|]. split; reflexivity.
    - intros j Hlt [Hl _].
      do 4 (destruct j as [|j]; [discriminate Hl|]). lia. }
  split; [exact Hf|].
  exact (proj2 (proj1 (practice_gate
                  [mkTrial 99 1; mkTrial 99 2; mkTrial 99 3; mkTrial 144 4;
                   mkTrial 255 5; mkTrial 99 6] 4)) Hf).
Defined.

(** ** Summary statistics *)

Lemma process_vmrk_sample : process_vmrk sample_rows = Ok sample_data.
Proof. reflexivity. Qed.

(** C4.  Whenever [summarize_vmrk] returns, every post-X mean whose count is
    zero is the float 0; that is how [post_mean] is computed, with no
    division.  Whenever the denominator of one of facc, fcacc, fiacc, faccpc,
    faccpe is zero, [summarize_vmrk] raises [ZeroDivisionError] and returns
    no value at all. *)
Theorem degenerate_statistics (filename : string) (data : list Block) :
  (∀ results cnt mean,
     summarize_vmrk filename data = Ok results →
     (cnt, mean) ∈ post_means →
     lookup_key cnt results = Some (VInt 0) →
     lookup_key mean results = Some (VFloat 0))
  ∧ (∀ v, post_mean v 0 = 0%Q)
  ∧ (den_facc data = 0 ∨ den_fcacc data = 0 ∨ den_fiacc data = 0
     ∨ den_faccpc data = 0 ∨ den_faccpe data = 0 →
     summarize_vmrk filename data = Raise ZeroDivisionError).
Proof.
  split; [|split; [done | apply summarize_vmrk_raises]].
  intros results cnt mean Hs Hin Hcnt. revert Hs.
  summarize_cases filename data; try done.
  intros [= <-]. revert Hcnt.
  unfold post_means in Hin.
  repeat (apply elem_of_cons in Hin as [[= -> ->] | Hin];
          [cbn [lookup_key String.eqb Ascii.eqb Bool.eqb];
           intros [= ->]; reflexivity|]).
  by apply elem_of_nil in Hin.
Qed.

(** On [sample_data] no trial follows an error with an error: fpeen is 0
    and fpeertm is the float 0.  On the empty dataset facc divides by 0. *)
Lemma degenerate_statistics_witness :
  (∃ results,
     summarize_vmrk "subj01.vmrk" sample_data = Ok results
     ∧ lookup_key "fpeen" results = Some (VInt 0)
     ∧ lookup_key "fpeertm" results = Some (VFloat 0))
  ∧ summarize_vmrk "subj01.vmrk" [] = Raise ZeroDivisionError.
Proof.
  split.
  - eexists. split; [vm_compute; reflexivity|]. split; [reflexivity|].
    eapply (proj1 (degenerate_statistics "subj01.vmrk" sample_data)
              _ "fpeen" "fpeertm").
    + vm_compute. reflexivity.
    + do 2 apply list_elem_of_further. apply list_elem_of_here.
    + reflexivity.
  - apply (proj2 (proj2 (degenerate_statistics "subj01.vmrk" []))).
    left. reflexivity.
Defined.



(** ** Anticipatory responses *)

Lemma count_lt_none v k : Forall (λ x, k ≤ x) v → count_lt v k = 0.
Proof.
  intros H. unfold count_lt, len.
  induction H as [|x v Hx _ IH]; [done|].
  rewrite filter_cons_False by lia. exact IH.
Qed.

Lemma trials_where_Forall (P : Z → Prop) correct cdata :
  Forall P (Rtim cdata) → Forall P (trials_where correct cdata).
Proof.
  rewrite !Forall_forall. intros H x Hin. apply H.
  unfold trials_where in Hin.
  apply list_elem_of_fmap in Hin as ([c x'] & -> & Hin).
  apply list_elem_of_filter in Hin as [_ Hin].
  by apply elem_of_zip_r in Hin.
Qed.

Lemma collapse_blocks_in_range data :
  Forall (in_range low high) data → in_range low high (collapse_blocks data).
Proof.
  intros H. unfold in_range. rewrite collapse_blocks_concat. simpl.
  induction H as [|b data Hb _ IH]; simpl; [constructor|].
  apply Forall_app. by split.
Qed.

(** C10.  For every dataset returned by [process_vmrk], no response time of
    the collapsed dataset is under 150, so the two anticipatory counts are 0,
    and fan and faen are the integer 0 in every mapping that
    [summarize_vmrk] returns for it. *)
Theorem no_anticipatory_responses (rdr : list Line) (data : list Block) :
  process_vmrk rdr = Ok data →
  count_lt (Rtim (collapse_blocks data)) 150 = 0
  ∧ count_lt (trials_where false (collapse_blocks data)) 150 = 0
  ∧ ∀ filename results,
      summarize_vmrk filename data = Ok results →
      lookup_key "fan" results = Some (VInt 0)
      ∧ lookup_key "faen" results = Some (VInt 0).
Proof.
  intros Hp.
  assert (Hge : Forall (λ rt, 150 ≤ rt) (Rtim (collapse_blocks data))).
  { pose proof (process_vmrk_in_range rdr data Hp) as Hr.
    apply collapse_blocks_in_range in Hr.
    eapply Forall_impl; [exact Hr|]. simpl. intros rt [Hlo _]. exact Hlo. }
  assert (Hfan : count_lt (Rtim (collapse_blocks data)) 150 = 0)
    by by apply count_lt_none.
  assert (Hfaen : count_lt (trials_where false (collapse_blocks data)) 150 = 0)
    by by apply count_lt_none, trials_where_Forall.
  split; [exact Hfan|]. split; [exact Hfaen|].
  intros filename results. summarize_cases filename data; try done.
  intros [= <-]. rewrite Hfan, Hfaen. split; reflexivity.
Qed.

Lemma no_anticipatory_responses_witness :
  process_vmrk sample_rows = Ok sample_data
  ∧ ∃ results,
      summarize_vmrk "subj01.vmrk" sample_data = Ok results
      ∧ lookup_key "fan" results = Some (VInt 0)
      ∧ lookup_key "faen" results = Some (VInt 0).
Proof.
  split; [reflexivity|].
  eexists. split; [vm_compute; reflexivity|].
  refine (proj2 (proj2 (no_anticipatory_responses sample_rows sample_data
                          eq_refl)) "subj01.vmrk" _ _).
  vm_compute. reflexivity.
Defined.

(** A window whose response time is out of range is inserted and removed at
    once; the dataset of [sample_rows] is in range. *)
Lemma retained_in_range_witness :
  in_range 150 3000 one_trial
  ∧ process_trial [mkTrial 99 0; mkTrial 1 10; mkTrial 5 20] one_trial
    = Ok one_trial
  ∧ Forall (in_range 150 3000) sample_data.
Proof.
  assert (Hp : process_trial [mkTrial 99 0; mkTrial 1 10; mkTrial 5 20] one_trial
               = Ok one_trial) by reflexivity.
  split; [|split; [exact Hp|]].
  - refine (proj1 retained_in_range _ _ _ Hp _).
    left. intros [Hlen | Hhd]; [simpl in Hlen; lia | by apply Hhd].
  - exact (proj2 (proj2 retained_in_range) sample_rows sample_data eq_refl).
Defined.

(** * Further properties of the code *)

(** ** [filter_outliers] on the records of a block *)

Lemma of_rows_rows b : aligned b → of_rows (rows b) = b.
Proof.
  intros [Hc Hn]. unfold of_rows, rows.
  rewrite snd_zip by (rewrite length_zip_with; lia).
  rewrite fst_zip by (rewrite length_zip_with; lia).
  rewrite fst_zip, snd_zip by lia. by destruct b.
Qed.

Lemma rows_of_rows l : rows (of_rows l) = l.
Proof. unfold rows, of_rows. simpl. by rewrite !zip_fst_snd. Qed.

Lemma of_rows_aligned l : aligned (of_rows l).
Proof. unfold aligned, of_rows. simpl. by rewrite !length_fmap. Qed.

Lemma gather_fmap_inliers_from {A B} (f : A → B) (g : A → Z) lo hi pre (l : list A) :
  Forall2 (λ i y, (pre ++ (f <$> l)) !! i = Some y)
    (filter (λ p : nat * Z, lo ≤ p.2 ∧ p.2 ≤ hi)
            (enumerate_from (length pre) (g <$> l))).*1
    (f <$> filter (λ a, lo ≤ g a ∧ g a ≤ hi) l).
Proof.
  revert pre. induction l as [|a l IH]; intros pre; simpl; [constructor|].
  specialize (IH (pre ++ [f a])).
  rewrite <- app_assoc, length_app in IH. simpl in IH.
  rewrite Nat.add_1_r in IH.
  destruct (decide (lo ≤ g a ∧ g a ≤ hi)) as [Hin|Hout].
  - rewrite !filter_cons_True by done. simpl. constructor; [|exact IH].
    by apply list_lookup_middle.
  - rewrite !filter_cons_False by done. exact IH.
Qed.

Lemma gather_fmap_inliers {A B} (f : A → B) (g : A → Z) lo hi (l : list A) :
  gather (f <$> l) (inliers lo hi (g <$> l))
  = Ok (f <$> filter (λ a, lo ≤ g a ∧ g a ≤ hi) l).
Proof. apply gather_Ok. exact (gather_fmap_inliers_from f g lo hi [] l). Qed.

Lemma filter_outliers_of_rows lo hi l :
  filter_outliers lo hi (of_rows l)
  = Ok (of_rows (filter (λ r : Code.t * Z * Z, lo ≤ r.1.2 ∧ r.1.2 ≤ hi) l)).
Proof.
  unfold filter_outliers. fold (inliers lo hi (Rtim (of_rows l))).
  unfold of_rows. simpl. rewrite <- !list_fmap_compose.
  rewrite (gather_fmap_inliers (fst ∘ fst) (snd ∘ fst)). simpl.
  rewrite (gather_fmap_inliers (snd ∘ fst) (snd ∘ fst)). simpl.
  rewrite (gather_fmap_inliers snd (snd ∘ fst)). simpl.
  done.
Qed.

Lemma filter_outliers_aligned lo hi b :
  aligned b →
  filter_outliers lo hi b
  = Ok (of_rows (filter (λ r : Code.t * Z * Z, lo ≤ r.1.2 ∧ r.1.2 ≤ hi) (rows b))).
Proof.
  intros Hal. rewrite <- (of_rows_rows b Hal) at 1.
  apply filter_outliers_of_rows.
Qed.

(** X1.  On a block whose three lists have the same length,
    [filter_outliers] never raises, and the block it leaves holds exactly
    the records whose response time lies in [[low, high]], whole (code,
    response time and marker count stay together) and in their order. *)
Theorem filter_outliers_rows (lo hi : Z) (b : Block) :
  aligned b →
  filter_outliers lo hi b
  = Ok (of_rows (filter (λ r : Code.t * Z * Z, lo ≤ r.1.2 ∧ r.1.2 ≤ hi) (rows b))).
Proof.
  intros [Hc Hn].
  assert (Hb : of_rows (rows b) = b) by (by apply of_rows_rows).
  rewrite <- Hb at 1. apply filter_outliers_of_rows.
Qed.

Lemma filter_outliers_rows_witness :
  aligned (mkBlock [Code.mk "left" true true; Code.mk "right" false false;
                    Code.mk "left" false true]
                   [200; 20; 3000] [3; 4; 5])
  ∧ filter_outliers 150 3000
      (mkBlock [Code.mk "left" true true; Code.mk "right" false false;
                Code.mk "left" false true]
               [200; 20; 3000] [3; 4; 5])
    = Ok (mkBlock [Code.mk "left" true true; Code.mk "left" false true]
                  [200; 3000] [3; 5]).
Proof.
  assert (Hal : aligned (mkBlock [Code.mk "left" true true;
                                  Code.mk "right" false false;
                                  Code.mk "left" false true]
                                 [200; 20; 3000] [3; 4; 5])) by (by split).
  split; [exact Hal|].
  rewrite (filter_outliers_rows 150 3000 _ Hal). reflexivity.
Defined.

(** X2.  On such a block, filtering with one pair of bounds and then with
    another is the same as filtering once with the larger of the lower
    bounds and the smaller of the upper bounds. *)
Theorem filter_outliers_compose (lo1 hi1 lo2 hi2 : Z) (b : Block) :
  aligned b →
  filter_outliers lo1 hi1 b ≫= filter_outliers lo2 hi2
  = filter_outliers (Z.max lo1 lo2) (Z.min hi1 hi2) b.
Proof.
  intros Hal. rewrite !filter_outliers_aligned by done. simpl.
  rewrite filter_outliers_of_rows, list_filter_filter.
  do 2 f_equal. apply list_filter_iff. intros r. lia.
Qed.

Lemma filter_outliers_compose_witness :
  filter_outliers 100 1000 (mkBlock [Code.mk "left" true true;
                                     Code.mk "right" false false]
                                    [120; 900] [3; 3])
    ≫= filter_outliers 150 3000
  = Ok (mkBlock [Code.mk "right" false false] [900] [3]).
Proof.
  rewrite (filter_outliers_compose 100 1000 150 3000); [reflexivity|].
  by split.
Defined.

Lemma gather_raises {A} (l : list A) (ii : list nat) :
  (∃ e, gather l ii = Raise e) ↔ ∃ i, i ∈ ii ∧ (length l ≤ i)%nat.
Proof.
  unfold gather. destruct (mapM (λ i, l !! i) ii) as [k|] eqn:Hm.
  - split; [by intros [e ?]|]. intros (i & Hi & Hlen).
    assert (Hs : is_Some (mapM (λ i, l !! i) ii)) by (rewrite Hm; eauto).
    apply mapM_is_Some_1 in Hs. rewrite Forall_forall in Hs.
    apply Hs in Hi. simpl in Hi. apply lookup_lt_is_Some in Hi. lia.
  - apply mapM_None_1, Exists_exists in Hm as (i & Hi & Hnone).
    split; [|eauto]. intros _. exists i. split; [done|].
    by apply lookup_ge_None.
Qed.

Lemma gather_raises_IndexError {A} (l : list A) (ii : list nat) e :
  gather l ii = Raise e → e = IndexError.
Proof. unfold gather. destruct (mapM _ ii); congruence. Qed.

(** X3.  [filter_outliers] raises exactly when some response time in range
    sits at a position that the list of codes or the list of marker counts
    does not reach, and the exception is then [IndexError]. *)
Theorem filter_outliers_raises (lo hi : Z) (b : Block) :
  ((∃ e, filter_outliers lo hi b = Raise e)
   ↔ ∃ i rt, Rtim b !! i = Some rt ∧ (lo ≤ rt ∧ rt ≤ hi)
             ∧ (length (Code b) ≤ i ∨ length (Ntri b) ≤ i)%nat)
  ∧ ∀ e, filter_outliers lo hi b = Raise e → e = IndexError.
Proof.
  unfold filter_outliers. fold (inliers lo hi (Rtim b)).
  destruct (gather_total (Rtim b) (inliers lo hi (Rtim b))
              (inliers_lt lo hi (Rtim b))) as [rtim Hr].
  pose proof (gather_raises (Code b) (inliers lo hi (Rtim b))) as Hc.
  pose proof (gather_raises (Ntri b) (inliers lo hi (Rtim b))) as Hn.
  pose proof (gather_raises_IndexError (Code b) (inliers lo hi (Rtim b))) as Hce.
  pose proof (gather_raises_IndexError (Ntri b) (inliers lo hi (Rtim b))) as Hne.
  rewrite Hr.
  destruct (gather (Code b) (inliers lo hi (Rtim b))) as [code|ec]; simpl.
  - destruct (gather (Ntri b) (inliers lo hi (Rtim b))) as [ntri|en]; simpl.
    + split; [|done]. split; [by intros [e ?]|].
      intros (i & rt & Hi & Hrt & [Hlen|Hlen]).
      * destruct (proj2 Hc) as [e ?]; [|done]. exists i. split; [|done].
        apply elem_of_inliers. eauto.
      * destruct (proj2 Hn) as [e ?]; [|done]. exists i. split; [|done].
        apply elem_of_inliers. eauto.
    + split; [|intros e [= <-]; by apply Hne]. split; [|eauto].
      intros _. destruct (proj1 Hn) as (i & Hi & Hlen); [eauto|].
      apply elem_of_inliers in Hi as (rt & Hi & Hrt). exists i, rt. auto.
  - split; [|intros e [= <-]; by apply Hce]. split; [|eauto].
    intros _. destruct (proj1 Hc) as (i & Hi & Hlen); [eauto|].
    apply elem_of_inliers in Hi as (rt & Hi & Hrt). exists i, rt. auto.
Qed.

(** A block with two response times and a single code *)
Lemma filter_outliers_raises_witness :
  filter_outliers 150 3000 (mkBlock [Code.mk "left" true true] [200; 300] [3; 3])
  = Raise IndexError.
Proof.
  destruct (proj2 (proj1 (filter_outliers_raises 150 3000
              (mkBlock [Code.mk "left" true true] [200; 300] [3; 3]))))
    as [e He].
  - exists 1%nat, 300. split; [reflexivity|]. split; [lia|]. left. simpl. lia.
  - rewrite He. f_equal.
    exact (proj2 (filter_outliers_raises 150 3000
             (mkBlock [Code.mk "left" true true] [200; 300] [3; 3])) e He).
Defined.

(** ** [process_trial] on a block of the segmenter *)

Lemma filter_all {A} (P : A → Prop) `{∀ x, Decision (P x)} (l : list A) :
  Forall P l → filter P l = l.
Proof.
  induction 1 as [|x l Hx _ IH]; [done|].
  rewrite filter_cons_True by done. by rewrite IH.
Qed.

Lemma rows_appended b r : aligned b → rows (appended b r) = rows b ++ [r].
Proof.
  intros [Hc Hn]. unfold rows, appended. simpl.
  rewrite (zip_with_app pair (Code b) [r.1.1] (Rtim b) [r.1.2]) by done.
  rewrite zip_with_app by (rewrite length_zip_with; lia).
  by destruct r as [[c rt] n].
Qed.

Lemma rows_in_range lo hi b :
  aligned b → in_range lo hi b →
  Forall (λ r : Code.t * Z * Z, lo ≤ r.1.2 ∧ r.1.2 ≤ hi) (rows b).
Proof.
  intros Hal Hr. apply Forall_forall. intros [[c rt] n] Hin. simpl.
  unfold rows in Hin. apply elem_of_zip_l, elem_of_zip_r in Hin.
  unfold in_range in Hr. rewrite Forall_forall in Hr. by apply Hr.
Qed.

(** X4.  On a block whose lists are in step and whose response times are
    all in [[150, 3000]] (every block the segmenter holds), a well-formed
    window either adds its record at the end of the block, when the response
    time of the record is in range, or leaves the block exactly as it was;
    no other record is touched. *)
Theorem process_trial_insert (qu : list Trial) (b : Block) (c : Code.t) (rt n : Z) :
  aligned b → in_range 150 3000 b →
  assemble qu = Some (c, rt, n) →
  process_trial qu b
  = Ok (if bool_decide (150 ≤ rt ∧ rt ≤ 3000)
        then mkBlock (Code b ++ [c]) (Rtim b ++ [rt]) (Ntri b ++ [n])
        else b).
Proof.
  intros Hal Hr Ha. rewrite (process_trial_appended _ _ _ Ha).
  assert (Hal' : aligned (appended b (c, rt, n))).
  { destruct Hal as [Hc Hn]. split; simpl; rewrite !length_app; simpl; lia. }
  rewrite filter_outliers_aligned by done. rewrite rows_appended by done.
  rewrite filter_app, (filter_all _ (rows b)) by by apply rows_in_range.
  unfold low, high. f_equal. case_bool_decide as Hrt.
  - rewrite filter_cons_True by done. simpl.
    rewrite <- rows_appended by done. by rewrite of_rows_rows.
  - rewrite filter_cons_False by done. simpl.
    rewrite app_nil_r. by apply of_rows_rows.
Qed.

Lemma process_trial_insert_witness :
  process_trial [mkTrial 99 0; mkTrial 3 10; mkTrial 8 110] one_trial
  = Ok (mkBlock [Code.mk "left" true true; Code.mk "right" true false]
                [200; 200] [3; 3]).
Proof.
  rewrite (process_trial_insert _ one_trial (Code.mk "right" true false) 200 3).
  - reflexivity.
  - by split.
  - repeat constructor; lia.
  - reflexivity.
Defined.

(** ** What [query] returns *)

Lemma enumerate_from_snd {A} k (l : list A) : (enumerate_from k l).*2 = l.
Proof. revert k. induction l as [|x l IH]; intros k; simpl; [done | by rewrite IH]. Qed.

Lemma zip_snd_take {A B} (l : list A) (k : list B) :
  (zip l k).*2 = take (length l) k.
Proof.
  revert k. induction l as [|x l IH]; intros [|y k]; simpl; try done.
  by rewrite IH.
Qed.

(** X5.  [query] never raises, whatever the block and the filters, and what
    it returns is a subsequence of the response times of the block: the
    values it keeps are in their original order and none is invented. *)
Theorem query_sublist (self : Block) (side : option string)
    (congruent correct lastcorrect : option bool) :
  ∃ v, query self side congruent correct lastcorrect = Ok v
       ∧ v `sublist_of` Rtim self.
Proof.
  eexists. split; [apply query_queried|]. unfold queried.
  transitivity ((zip (Code self) (Rtim self)).*2).
  - rewrite <- (enumerate_from_snd 0 (zip (Code self) (Rtim self))) at 2.
    unfold enumerate. rewrite <- list_fmap_compose.
    apply fmap_sublist, sublist_filter.
  - rewrite zip_snd_take. apply sublist_take.
Qed.

(** X6.  With no filter set, [query] returns the response times that have
    a code beside them: the first [len(self.Code)] entries of [self.Rtim]. *)
Theorem query_unfiltered (self : Block) :
  query self None None None None = Ok (take (length (Code self)) (Rtim self)).
Proof.
  rewrite query_unconditioned. f_equal. unfold selected.
  rewrite filter_all; [apply zip_snd_take|]. by apply Forall_forall.
Qed.

Lemma filter_length_split {A} (fT fF f : A → bool) (l : list A) :
  (∀ x, x ∈ l → (Nat.b2n (fT x) + Nat.b2n (fF x))%nat = Nat.b2n (f x)) →
  (length (filter (λ x, fT x = true) l) + length (filter (λ x, fF x = true) l))%nat
  = length (filter (λ x, f x = true) l).
Proof.
  induction l as [|x l IH]; intros Hx; [done|].
  specialize (IH (λ y Hy, Hx y (list_elem_of_further _ _ _ Hy))).
  specialize (Hx x (list_elem_of_here _ _)).
  rewrite !filter_cons.
  destruct (fT x), (fF x), (f x); simpl in Hx; try discriminate Hx;
    repeat (destruct (decide _); try done); simpl; lia.
Qed.

Lemma attrs_pass_correct_split side congruent c :
  (Nat.b2n (attrs_pass side congruent (Some true) c)
   + Nat.b2n (attrs_pass side congruent (Some false) c))%nat
  = Nat.b2n (attrs_pass side congruent None c).
Proof.
  unfold attrs_pass.
  destruct (match side with Some s => bool_decide (Code.side c = s) | None => true end);
  destruct (match congruent with
            | Some g => bool_decide (Code.congruent c = g) | None => true end);
  destruct (Code.correct c); reflexivity.
Qed.

(** X7.  For every block and every setting of the other filters, the query
    with [correct=True] and the query with [correct=False] split the query
    that leaves [correct] unset: their lengths add up to its length. *)
Theorem query_correct_split (self : Block) (side : option string)
    (congruent lastcorrect : option bool) :
  ∃ vc ve v,
    query self side congruent (Some true) lastcorrect = Ok vc
    ∧ query self side congruent (Some false) lastcorrect = Ok ve
    ∧ query self side congruent None lastcorrect = Ok v
    ∧ (length vc + length ve)%nat = length v.
Proof.
  do 3 eexists. repeat (split; [apply query_queried|]).
  unfold queried. rewrite !length_map.
  apply filter_length_split. intros [j [c x]] _. unfold keeps. simpl.
  pose proof (attrs_pass_correct_split side congruent c) as Hs.
  destruct (prev_pass self lastcorrect j);
    rewrite ?andb_true_r, ?andb_false_r; [exact Hs | reflexivity].
Qed.

Lemma prev_pass_split self j :
  is_Some (Code self !! j) →
  (Nat.b2n (prev_pass self (Some true) (S j))
   + Nat.b2n (prev_pass self (Some false) (S j)))%nat = 1%nat.
Proof.
  intros [p Hp]. simpl. rewrite Hp. by destruct (Code.correct p).
Qed.

(** X8.  The first record of a block is returned both by the query with
    [lastcorrect=True] and by the query with [lastcorrect=False], every
    later record by exactly one of the two: the two lengths add up to the
    length of the query without [lastcorrect], plus one when the first
    record passes the side/congruent/correct tests. *)
Theorem query_lastcorrect_split (self : Block) (side : option string)
    (congruent correct : option bool) :
  ∃ vt vf v,
    query self side congruent correct (Some true) = Ok vt
    ∧ query self side congruent correct (Some false) = Ok vf
    ∧ query self side congruent correct None = Ok v
    ∧ (length vt + length vf)%nat
      = (length v
         + match head (Code self), head (Rtim self) with
           | Some c, Some _ => Nat.b2n (attrs_pass side congruent correct c)
           | _, _ => 0
           end)%nat.
Proof.
  do 3 eexists. repeat (split; [apply query_queried|]).
  unfold queried. rewrite !length_map. unfold enumerate.
  pose proof (elem_of_enumerate_from 0 (zip (Code self) (Rtim self))) as Hin.
  destruct (Code self) as [|c cs] eqn:Hc; [done|].
  destruct (Rtim self) as [|x xs] eqn:Hx; [done|].
  cbn [head zip_with enumerate_from].
  assert (Hhead : ∀ lc, keeps self side congruent correct lc (0%nat, (c, x))
                        = attrs_pass side congruent correct c).
  { intros lc. unfold keeps. simpl. destruct lc; simpl; apply andb_true_r. }
  assert (Htail : (length (filter (λ it, keeps self side congruent correct
                                           (Some true) it = true)
                                  (enumerate_from 1 (zip cs xs)))
                   + length (filter (λ it, keeps self side congruent correct
                                             (Some false) it = true)
                                    (enumerate_from 1 (zip cs xs))))%nat
                  = length (filter (λ it, keeps self side congruent correct
                                            None it = true)
                                   (enumerate_from 1 (zip cs xs)))).
  { apply filter_length_split. intros [j [c' x']] Hj.
    apply elem_of_enumerate_from in Hj as [Hle Hj].
    apply lookup_zip_Some in Hj as [Hj _].
    destruct j as [|j]; [lia|]. simpl in Hj. rewrite Nat.sub_0_r in Hj.
    unfold keeps. simpl fst. simpl snd.
    assert (Hp : is_Some (Code self !! j)).
    { rewrite Hc. apply lookup_lt_is_Some. apply lookup_lt_Some in Hj. simpl. lia. }
    pose proof (prev_pass_split self j Hp) as Hs.
    change (prev_pass self None (S j)) with true.
    destruct (attrs_pass side congruent correct c'); simpl; [exact Hs | done]. }
  destruct (attrs_pass side congruent correct c) eqn:Ha.
  - rewrite !filter_cons_True by (by rewrite Hhead). simpl. lia.
  - rewrite !filter_cons_False by (by rewrite Hhead). simpl. lia.
Qed.

(** ** When [summarize_vmrk] returns, and what *)

(** X9.  On a dataset whose response times all lie in [[150, 3000]] (as in
    every dataset that [process_vmrk] returns; the bound keeps every
    quotient far inside the range of a float, so that no division can
    overflow), [summarize_vmrk] returns a mapping exactly when the five
    denominators (of facc, fcacc, fiacc, faccpc and faccpe) are all nonzero;
    otherwise it raises, and the only exception it can raise is
    [ZeroDivisionError]. *)
Theorem summarize_vmrk_returns (filename : string) (data : list Block) :
  Forall (in_range 150 3000) data →
  ((∃ results, summarize_vmrk filename data = Ok results)
   ↔ den_facc data ≠ 0 ∧ den_fcacc data ≠ 0 ∧ den_fiacc data ≠ 0
     ∧ den_faccpc data ≠ 0 ∧ den_faccpe data ≠ 0)
  ∧ ∀ e, summarize_vmrk filename data = Raise e → e = ZeroDivisionError.
Proof.
  intros _.
  summarize_cases filename data;
    try (split; [split; [by intros [? ?] | tauto] | by intros e [= <-]]).
  split; [|done]. split; [tauto | eauto].
Qed.

Lemma summarize_vmrk_returns_witness :
  Forall (in_range 150 3000) sample_data
  ∧ (∃ results, summarize_vmrk "subj01.vmrk" sample_data = Ok results)
  ∧ summarize_vmrk "subj01.vmrk" [mkBlock [] [] []] = Raise ZeroDivisionError.
Proof.
  assert (Hr : Forall (in_range 150 3000) sample_data)
    by (repeat constructor; lia).
  assert (Hr0 : Forall (in_range 150 3000) [mkBlock [] [] []])
    by (repeat constructor).
  split; [exact Hr|]. split.
  - apply (proj1 (summarize_vmrk_returns "subj01.vmrk" sample_data Hr)).
    vm_compute. repeat split; discriminate.
  - destruct (summarize_vmrk "subj01.vmrk" [mkBlock [] [] []]) as [r|e] eqn:He.
    + apply (ex_intro (λ r, _ = Ok r) r) in He.
      apply (proj1 (summarize_vmrk_returns "subj01.vmrk" [mkBlock [] [] []] Hr0))
        in He.
      by destruct He as [He _].
    + f_equal.
      by apply (proj2 (summarize_vmrk_returns "subj01.vmrk" [mkBlock [] [] []] Hr0)).
Defined.

(** X10.  Every mapping that [summarize_vmrk] returns has the same 43 keys
    in the same order, whatever the data, and its first entry, sid, is the
    file name up to its first dot. *)
Theorem summarize_vmrk_keys (filename : string) (data : list Block)
    (results : list (string * Value)) :
  summarize_vmrk filename data = Ok results →
  results.*1 = result_keys
  ∧ lookup_key "sid" results = Some (VStr (before_dot filename)).
Proof.
  summarize_cases filename data; try done.
  intros [= <-]. split; reflexivity.
Qed.

Lemma summarize_vmrk_keys_witness :
  ∃ results, summarize_vmrk "subj01.vmrk" sample_data = Ok results
             ∧ results.*1 = result_keys
             ∧ lookup_key "sid" results = Some (VStr "subj01").
Proof.
  eexists. split; [vm_compute; reflexivity|].
  apply (summarize_vmrk_keys "subj01.vmrk" sample_data).
  vm_compute. reflexivity.
Defined.

Lemma post_count_nonneg v : 0 ≤ post_count v.
Proof.
  unfold post_count. induction v as [|x v IH]; simpl; [done|].
  unfold sum in *. simpl. lia.
Qed.

Lemma trials_where_le correct cdata :
  len (trials_where correct cdata) ≤ len (Rtim cdata).
Proof.
  unfold trials_where, len. rewrite length_fmap.
  pose proof (length_filter (λ kx : Code.t * Z, Code.correct kx.1 = correct)
                (zip (Code cdata) (Rtim cdata))) as Hf.
  rewrite length_zip_with in Hf. lia.
Qed.

Lemma ratio_bounds (k n b : Z) :
  0 ≤ n → n ≤ k * b → 0 < b →
  (0 <= inject_Z n / inject_Z b)%Q ∧ (inject_Z n / inject_Z b <= inject_Z k)%Q.
Proof.
  intros Hn Hk Hb.
  assert (Hb' : (0 < inject_Z b)%Q).
  { change 0%Q with (inject_Z 0). by rewrite <- Zlt_Qlt. }
  split.
  - apply Qle_shift_div_l; [done|]. rewrite Qmult_0_l.
    change 0%Q with (inject_Z 0). by rewrite <- Zle_Qle.
  - apply Qle_shift_div_r; [done|]. rewrite <- inject_Z_mult.
    by rewrite <- Zle_Qle.
Qed.

(** X11.  In every mapping that [summarize_vmrk] returns, the three accuracy
    percentages facc, fcacc and fiacc lie between 0 and 100, and the two
    post-X accuracies faccpc and faccpe between 0 and 1 (they are
    proportions, not percentages). *)
Theorem ratio_statistics_bounded (filename : string) (data : list Block)
    (results : list (string * Value)) (key : string) (k : Z) :
  summarize_vmrk filename data = Ok results →
  (key, k) ∈ ratio_stats →
  ∃ q, lookup_key key results = Some (VFloat q)
       ∧ (0 <= q)%Q ∧ (q <= inject_Z k)%Q.
Proof.
  intros Hs Hin. revert Hs.
  pose proof (trials_where_le true (collapse_blocks data)) as Hfcn.
  pose proof (post_count_nonneg
                (queried_each data None None (Some true) (Some true))) as H1.
  pose proof (post_count_nonneg
                (queried_each data None None (Some false) (Some true))) as H2.
  pose proof (post_count_nonneg
                (queried_each data None None (Some true) (Some false))) as H3.
  pose proof (post_count_nonneg
                (queried_each data None None (Some false) (Some false))) as H4.
  summarize_cases filename data; try done.
  intros [= <-]. unfold ratio_stats in Hin.
  repeat (apply elem_of_cons in Hin as [[= -> ->] | Hin];
          [eexists; split; [reflexivity|];
           apply ratio_bounds;
           unfold den_facc, den_fcacc, den_fiacc, den_faccpc, den_faccpe, len in *;
           lia|]).
  by apply elem_of_nil in Hin.
Qed.

Lemma ratio_statistics_bounded_witness :
  ∃ results q,
    summarize_vmrk "subj01.vmrk" sample_data = Ok results
    ∧ lookup_key "faccpc" results = Some (VFloat q)
    ∧ (0 <= q)%Q ∧ (q <= 1)%Q.
Proof.
  assert (Hs : ∃ results, summarize_vmrk "subj01.vmrk" sample_data = Ok results)
    by (eexists; vm_compute; reflexivity).
  destruct Hs as [results Hs].
  destruct (ratio_statistics_bounded "subj01.vmrk" sample_data results
              "faccpc" 1 Hs)
    as (q & Hq & Hlo & Hhi).
  - unfold ratio_stats. do 3 apply list_elem_of_further. apply list_elem_of_here.
  - exists results, q. split; [exact Hs|]. split; [exact Hq|].
    split; [exact Hlo | exact Hhi].
Defined.

(** ** Datasets without an error, or without a correct response *)

Lemma filter_none {A} (P : A → Prop) `{∀ x, Decision (P x)} (l : list A) :
  Forall (λ x, ¬ P x) l → filter P l = [].
Proof.
  induction 1 as [|x l Hx _ IH]; [done|].
  by rewrite filter_cons_False.
Qed.

Lemma queried_uniform self side congruent correct lc :
  Forall (λ p, Code.correct p ≠ lc) (Code self) →
  (length (queried self side congruent correct (Some lc)) ≤ 1)%nat.
Proof.
  intros Hall. unfold queried, enumerate. rewrite length_map.
  destruct (zip (Code self) (Rtim self)) as [|it rest] eqn:Hz; [simpl; lia|].
  cbn [enumerate_from]. rewrite filter_cons.
  rewrite (filter_none _ (enumerate_from 1 rest)).
  - destruct (decide _); simpl; lia.
  - apply Forall_forall. intros [j [c x]] Hj.
    apply elem_of_enumerate_from in Hj as [Hle _].
    destruct j as [|j]; [lia|]. unfold keeps. simpl.
    destruct (Code self !! j) as [p|] eqn:Hp;
      [|rewrite andb_false_r; discriminate].
    rewrite Forall_forall in Hall.
    rewrite bool_decide_eq_false_2, andb_false_r; [discriminate|].
    apply Hall. by eapply list_elem_of_lookup_2.
Qed.

Lemma post_count_singletons v :
  Forall (λ x : list Z, (length x ≤ 1)%nat) v → post_count v = 0.
Proof.
  unfold post_count, sum, len.
  induction 1 as [|x v Hx _ IH]; simpl; [done|]. lia.
Qed.

Lemma post_count_uniform data side congruent correct lc :
  Forall (λ b, Forall (λ p, Code.correct p ≠ lc) (Code b)) data →
  post_count (queried_each data side congruent correct (Some lc)) = 0.
Proof.
  intros Hall. apply post_count_singletons. unfold queried_each.
  apply Forall_fmap. eapply Forall_impl; [exact Hall|].
  intros b Hb. by apply queried_uniform.
Qed.

(** X12.  On a dataset whose response times all lie in [[150, 3000]] (as
    in every dataset that [process_vmrk] returns; the bound keeps every
    quotient far inside the range of a float), [summarize_vmrk] raises
    [ZeroDivisionError] when the responses are all correct, and when they
    are all errors: no trial then follows an error (respectively a correct
    response) beyond the first of its block, and faccpe (respectively faccpc)
    divides by zero. *)
Theorem summarize_vmrk_uniform (filename : string) (data : list Block) (r : bool) :
  Forall (in_range 150 3000) data →
  Forall (λ b, Forall (λ p, Code.correct p = r) (Code b)) data →
  summarize_vmrk filename data = Raise ZeroDivisionError.
Proof.
  intros _ Hall. apply summarize_vmrk_raises.
  assert (Hne : Forall (λ b, Forall (λ p, Code.correct p ≠ negb r) (Code b)) data).
  { eapply Forall_impl; [exact Hall|]. intros b Hb.
    eapply Forall_impl; [exact Hb|]. intros p ->. by destruct r. }
  destruct r; simpl in Hne.
  - do 4 right. unfold den_faccpe. by rewrite !post_count_uniform.
  - do 3 right. left. unfold den_faccpc. by rewrite !post_count_uniform.
Qed.

(** Two blocks of correct responses *)
Lemma summarize_vmrk_uniform_witness :
  summarize_vmrk "subj01.vmrk"
    [mkBlock [Code.mk "left" true true; Code.mk "right" false true]
             [200; 300] [3; 3];
     mkBlock [Code.mk "left" false true] [400] [3]]
  = Raise ZeroDivisionError.
Proof.
  apply (summarize_vmrk_uniform _ _ true).
  - repeat constructor; lia.
  - repeat constructor.
Defined.

(** ** The counts of [summarize_vmrk] *)

Lemma trials_where_split cdata :
  (length (trials_where true cdata) + length (trials_where false cdata))%nat
  = length (zip (Code cdata) (Rtim cdata)).
Proof.
  unfold trials_where. rewrite !length_fmap.
  induction (zip (Code cdata) (Rtim cdata)) as [|[c x] l IH]; [done|].
  rewrite !filter_cons. simpl.
  destruct (Code.correct c); repeat (destruct (decide _); try done); simpl; lia.
Qed.

Lemma queried_unconditioned self side congruent correct :
  queried self side congruent correct None
  = selected side congruent correct (Code self) (Rtim self).
Proof. unfold queried, enumerate, selected. apply kept_unconditioned. Qed.

Lemma attrs_pass_congruent_split side correct c :
  (Nat.b2n (attrs_pass side (Some true) correct c)
   + Nat.b2n (attrs_pass side (Some false) correct c))%nat
  = Nat.b2n (attrs_pass side None correct c).
Proof.
  unfold attrs_pass.
  destruct (match side with Some s => bool_decide (Code.side c = s) | None => true end);
  destruct (Code.congruent c);
  destruct (match correct with
            | Some r => bool_decide (Code.correct c = r) | None => true end);
  reflexivity.
Qed.

Lemma selected_four_way codes rtim :
  (length (selected None (Some true) (Some true) codes rtim)
   + length (selected None (Some true) (Some false) codes rtim)
   + length (selected None (Some false) (Some true) codes rtim)
   + length (selected None (Some false) (Some false) codes rtim))%nat
  = length (zip codes rtim).
Proof.
  unfold selected. rewrite !length_fmap.
  pose proof (filter_length_split
                (λ kx : Code.t * Z, attrs_pass None (Some true) (Some true) kx.1)
                (λ kx, attrs_pass None (Some true) (Some false) kx.1)
                (λ kx, attrs_pass None (Some true) None kx.1)
                (zip codes rtim)
                (λ kx _, attrs_pass_correct_split None (Some true) kx.1)) as H1.
  pose proof (filter_length_split
                (λ kx : Code.t * Z, attrs_pass None (Some false) (Some true) kx.1)
                (λ kx, attrs_pass None (Some false) (Some false) kx.1)
                (λ kx, attrs_pass None (Some false) None kx.1)
                (zip codes rtim)
                (λ kx _, attrs_pass_correct_split None (Some false) kx.1)) as H2.
  pose proof (filter_length_split
                (λ kx : Code.t * Z, attrs_pass None (Some true) None kx.1)
                (λ kx, attrs_pass None (Some false) None kx.1)
                (λ kx, attrs_pass None None None kx.1)
                (zip codes rtim)
                (λ kx _, attrs_pass_congruent_split None None kx.1)) as H3.
  rewrite (filter_all (λ kx : Code.t * Z, attrs_pass None None None kx.1 = true))
    in H3 by (by apply Forall_forall).
  lia.
Qed.

Lemma collapse_blocks_paired data :
  Forall paired data → paired (collapse_blocks data).
Proof.
  intros H. unfold paired. rewrite collapse_blocks_concat. simpl.
  induction H as [|b data Hb _ IH]; [done|].
  rewrite !fmap_cons. cbn [concat]. rewrite !length_app.
  unfold paired in Hb. lia.
Qed.

(** X13.  For a dataset whose blocks hold as many codes as response times,
    every mapping that [summarize_vmrk] returns counts each trial once by
    correctness and once by congruency and correctness: fcn + fen, and
    fccn + fcen + ficn + fien, both equal the number of trials. *)
Theorem counts_partition (filename : string) (data : list Block)
    (results : list (string * Value)) :
  Forall paired data →
  summarize_vmrk filename data = Ok results →
  ∃ fcn fen fccn fcen ficn fien,
    lookup_key "fcn" results = Some (VInt fcn)
    ∧ lookup_key "fen" results = Some (VInt fen)
    ∧ lookup_key "fccn" results = Some (VInt fccn)
    ∧ lookup_key "fcen" results = Some (VInt fcen)
    ∧ lookup_key "ficn" results = Some (VInt ficn)
    ∧ lookup_key "fien" results = Some (VInt fien)
    ∧ fcn + fen = len (Rtim (collapse_blocks data))
    ∧ fccn + fcen + ficn + fien = len (Rtim (collapse_blocks data)).
Proof.
  intros Hp%collapse_blocks_paired.
  pose proof (trials_where_split (collapse_blocks data)) as H2.
  pose proof (selected_four_way (Code (collapse_blocks data))
                (Rtim (collapse_blocks data))) as H4.
  rewrite length_zip_with in H2, H4. unfold paired in Hp.
  summarize_cases filename data; try done.
  intros [= <-]. do 6 eexists. do 6 (split; [reflexivity|]).
  rewrite !queried_unconditioned. unfold den_facc, len. lia.
Qed.

Lemma counts_partition_witness :
  ∃ results,
    summarize_vmrk "subj01.vmrk" sample_data = Ok results
    ∧ ∃ fcn fen fccn fcen ficn fien,
        lookup_key "fcn" results = Some (VInt fcn)
        ∧ lookup_key "fen" results = Some (VInt fen)
        ∧ lookup_key "fccn" results = Some (VInt fccn)
        ∧ lookup_key "fcen" results = Some (VInt fcen)
        ∧ lookup_key "ficn" results = Some (VInt ficn)
        ∧ lookup_key "fien" results = Some (VInt fien)
        ∧ fcn + fen = len (Rtim (collapse_blocks sample_data))
        ∧ fccn + fcen + ficn + fien = len (Rtim (collapse_blocks sample_data)).
Proof.
  assert (Hs : ∃ results, summarize_vmrk "subj01.vmrk" sample_data = Ok results)
    by (eexists; vm_compute; reflexivity).
  destruct Hs as [results Hs].
  assert (Hp : Forall paired sample_data) by (repeat constructor).
  exists results. split; [exact Hs|].
  exact (counts_partition "subj01.vmrk" sample_data results Hp Hs).
Defined.

(** ** Invariants of the segmenter *)

Lemma run_from_invariant (P : State → Prop) :
  (∀ st line st', P st → loop_body st line = Ok st' → P st') →
  ∀ rdr st st', P st → run_from st rdr = Ok st' → P st'.
Proof.
  intros Hstep rdr. induction rdr as [|line rdr IH]; intros st st' Hst; simpl.
  - by intros [= <-].
  - intros Hr. inv_bind Hr as st1 H1. eapply IH; [|exact Hr]. by eapply Hstep.
Qed.

(** Case analysis on one iteration of the loop that ends without an
    exception. *)
Lemma loop_body_cases st line st' :
  loop_body st line = Ok st' →
  st' = st
  ∨ (mode st = practice ∧ qu st' = qu st ∧ data st' = data st
     ∧ block st' = block st ∧ blocknum st' = blocknum st
     ∧ dblock st' = dblock st)
  ∨ (mode st = experiment ∧ mode st' = experiment
     ∧ n99 st' = n99 st ∧ n144 st' = n144 st
     ∧ ((∃ b, 0 < dblock st ∧ data st' = data st ++ [b]
              ∧ blocknum st' = blocknum st + 1 ∧ dblock st' = 0
              ∧ block st' = Block_new)
        ∨ (data st' = data st ∧ blocknum st' = blocknum st
           ∧ (dblock st' = dblock st ∨ dblock st' = dblock st + 1)))).
Proof.
  unfold loop_body.
  destruct (is_mark line); simpl; [|intros [= <-]; by left].
  destruct (kind line) as [fl|]; simpl; [|done].
  case_bool_decide; [intros [= <-]; by left|].
  case_bool_decide; simpl; [|intros [= <-]; by left].
  destruct (code_field line) as [stimcode|]; simpl; [|done].
  destruct (mode st) eqn:Hm.
  - destruct (_ && _ && _); intros [= <-]; right; left; simpl; by repeat split.
  - destruct (time_field line) as [t|]; simpl; [|done].
    destruct (_ || _).
    + destruct (0 <? dblock st) eqn:Hd.
      * intros Hs. inv_bind Hs as block' Hp. injection Hs as <-.
        right; right. simpl. do 4 (split; [done|]). left. exists block'.
        apply Z.ltb_lt in Hd. by repeat split.
      * intros [= <-]. right; right. simpl. do 4 (split; [done|]).
        right. repeat split; by left.
    + destruct (stimcode =? 99).
      * intros Hs. inv_bind Hs as block' Hp. injection Hs as <-.
        right; right. simpl. do 4 (split; [done|]).
        right. repeat split; by right.
      * intros [= <-]. right; right. simpl. do 4 (split; [done|]).
        right. repeat split; by right.
Qed.

(** X14.  After any rows that [process_vmrk] reads without an exception, the
    block counter equals the number of blocks in the dataset, and the
    counter of markers since the last boundary is not negative. *)
Theorem blocknum_counts_blocks (rdr : list Line) (st : State) :
  run rdr = Ok st → blocknum st = len (data st) ∧ 0 ≤ dblock st.
Proof.
  apply (run_from_invariant (λ st, blocknum st = len (data st) ∧ 0 ≤ dblock st));
    [|done].
  clear. intros st line st' [Hb Hd] Hs.
  apply loop_body_cases in Hs
    as [-> | [(_ & _ & Hdata & _ & Hbn & Hdb)
             | (_ & _ & _ & _ & [(b & _ & Hdata & Hbn & Hdb & _)
                                | (Hdata & Hbn & Hdb)])]].
  - done.
  - rewrite Hbn, Hdata, Hdb. done.
  - rewrite Hbn, Hdata, Hdb. unfold len in *. rewrite length_app. simpl. lia.
  - rewrite Hbn, Hdata. split; [done|]. lia.
Qed.

Lemma blocknum_counts_blocks_witness :
  ∃ st, run sample_rows = Ok st ∧ blocknum st = 1 ∧ len (data st) = 1.
Proof.
  assert (Hs : ∃ st, run sample_rows = Ok st) by (eexists; vm_compute; reflexivity).
  destruct Hs as [st Hs]. exists st. split; [exact Hs|].
  pose proof (proj1 (blocknum_counts_blocks sample_rows st Hs)) as Hb.
  split; [|rewrite <- Hb]; revert Hs; vm_compute; by intros [= <-].
Defined.

(** X15.  Experiment mode is final: from a state in experiment mode, no
    sequence of rows brings the segmenter back to practice mode, and the two
    gating variables [n99] and [n144] are never written again. *)
Theorem experiment_is_final (rdr : list Line) (st st' : State) :
  mode st = experiment →
  run_from st rdr = Ok st' →
  mode st' = experiment ∧ n99 st' = n99 st ∧ n144 st' = n144 st.
Proof.
  intros Hm.
  apply (run_from_invariant
           (λ s, mode s = experiment ∧ n99 s = n99 st ∧ n144 s = n144 st));
    [|done].
  clear. intros s line s' (Hm & Hn & Hf) Hs.
  apply loop_body_cases in Hs
    as [-> | [(Hp & _) | (_ & Hm' & Hn' & Hf' & _)]].
  - done.
  - congruence.
  - split; [done|]. split; congruence.
Qed.

Lemma experiment_is_final_witness :
  ∃ st', run_from (mkState 0 0 experiment 3 true [] [] Block_new)
           [stimulus 99 1; stimulus 99 2; stimulus 144 3; stimulus 255 4] = Ok st'
         ∧ mode st' = experiment ∧ n99 st' = 3.
Proof.
  assert (Hs : ∃ st', run_from (mkState 0 0 experiment 3 true [] [] Block_new)
                        [stimulus 99 1; stimulus 99 2; stimulus 144 3;
                         stimulus 255 4] = Ok st')
    by (eexists; vm_compute; reflexivity).
  destruct Hs as [st' Hs]. exists st'. split; [exact Hs|].
  destruct (experiment_is_final
              [stimulus 99 1; stimulus 99 2; stimulus 144 3; stimulus 255 4]
              (mkState 0 0 experiment 3 true [] [] Block_new) st' eq_refl Hs)
    as (Hm & Hn & _).
  split; [exact Hm | exact Hn].
Defined.

(** X16.  Once a block is in the dataset it stays there unchanged: the
    dataset after more rows extends the dataset before them, and the dataset
    returned for a prefix of the rows is a prefix of the dataset returned
    for all of them. *)
Theorem dataset_grows (rdr1 rdr2 : list Line) (data2 : list Block) :
  process_vmrk (rdr1 ++ rdr2) = Ok data2 →
  ∃ data1, process_vmrk rdr1 = Ok data1 ∧ data1 `prefix_of` data2.
Proof.
  unfold process_vmrk, run. rewrite run_from_app. intros H.
  inv_bind H as st2 H2. inv_bind H2 as st1 H1. inv_bind H as b Hb.
  injection H as <-. exists (data st1). split.
  - rewrite H1. simpl.
    destruct (process_trial_total (qu st1) (block st1)) as [b1 ->]; [|done].
    apply (run_ok rdr1 st1 H1).
  - revert H2. 
    apply (run_from_invariant (λ s, data st1 `prefix_of` data s)); [|done].
    clear. intros s line s' Hpre Hs.
    apply loop_body_cases in Hs
      as [-> | [(_ & _ & Hdata & _)
               | (_ & _ & _ & _ & [(b & _ & Hdata & _) | (Hdata & _)])]];
      rewrite ?Hdata; try done.
    by apply prefix_app_r.
Qed.

Lemma dataset_grows_witness :
  ∃ data1, process_vmrk (take 10 sample_rows) = Ok data1
           ∧ data1 `prefix_of` sample_data.
Proof.
  apply (dataset_grows (take 10 sample_rows) (drop 10 sample_rows) sample_data).
  rewrite take_drop. reflexivity.
Defined.

(** X17.  Rows that are not mark rows, comment rows and rows of any kind
    other than stimulus are inert: removing them from the input changes
    neither the dataset nor the exception that [process_vmrk] ends with. *)
Theorem skipped_rows_inert (rdr : list Line) :
  process_vmrk (filter (λ line, skipped line = false) rdr) = process_vmrk rdr.
Proof.
  unfold process_vmrk, run. generalize init.
  assert (Hskip : ∀ st line, skipped line = true → loop_body st line = Ok st).
  { intros st line. unfold skipped, loop_body.
    destruct (is_mark line); simpl; [|done].
    destruct (kind line) as [fl|]; simpl; [|done].
    case_bool_decide as Hc; [done|].
    by case_bool_decide. }
  assert (Hrun : ∀ st, run_from st (filter (λ line, skipped line = false) rdr)
                       = run_from st rdr).
  { induction rdr as [|line rdr IH]; intros st; [done|].
    destruct (skipped line) eqn:Hl.
    - rewrite filter_cons_False by (rewrite Hl; done). simpl.
      rewrite (Hskip st line Hl). simpl. apply IH.
    - rewrite filter_cons_True by done. simpl.
      destruct (loop_body st line) as [st1|]; simpl; [apply IH | done]. }
  intros st. by rewrite Hrun.
Qed.

(** ** What reaches the dataset *)

Lemma process_vmrk_of_run rdr st :
  run rdr = Ok st → process_vmrk rdr = Ok (data st).
Proof.
  intros Hr. unfold process_vmrk. rewrite Hr. simpl.
  destruct (process_trial_total (qu st) (block st)) as [b ->]; [|done].
  apply (run_ok rdr st Hr).
Qed.

Lemma process_vmrk_run rdr ds :
  process_vmrk rdr = Ok ds → ∃ st, run rdr = Ok st ∧ ds = data st.
Proof.
  unfold process_vmrk. intros H. inv_bind H as st Hst. inv_bind H as b Hb.
  injection H as <-. eauto.
Qed.

Lemma loop_body_nonboundary st c t :
  state_ok st → c ≠ 144 → c ≠ 255 →
  ∃ st', loop_body st (stimulus c t) = Ok st' ∧ data st' = data st.
Proof.
  intros Hok H144 H255. destruct (mode st) eqn:Hm.
  - rewrite loop_body_practice by done. cbv zeta. eauto.
  - destruct Hok as [[_ Hal] _]. unfold loop_body. simpl. rewrite Hm.
    rewrite (proj2 (Z.eqb_neq c 144) H144), (proj2 (Z.eqb_neq c 255) H255). simpl.
    destruct (process_trial_total
                (but_last (qu st ++ [mkTrial c t])) (block st) Hal) as [b' Hb'].
    destruct (c =? 99); [rewrite Hb'|]; simpl; eauto.
Qed.

Lemma run_from_nonboundary st ex :
  state_ok st →
  Forall (λ m, srcode m ≠ 144 ∧ srcode m ≠ 255) ex →
  ∃ st', run_from st (stream ex) = Ok st' ∧ data st' = data st.
Proof.
  intros Hok Hex. revert st Hok.
  induction Hex as [|m ex [H144 H255] _ IH]; intros st Hok; simpl; [eauto|].
  destruct (loop_body_nonboundary st (srcode m) (time m) Hok H144 H255)
    as (st1 & H1 & Hd1).
  rewrite H1. simpl.
  destruct (IH st1) as (st' & Hst' & Hd'); [by eapply loop_body_ok|].
  exists st'. split; [done | congruence].
Qed.

(** X18.  Markers that come after the last 144 or 255 never reach the
    dataset: appending stimulus rows with codes other than 144 and 255 to
    any input leaves the dataset that [process_vmrk] returns unchanged (the
    trials they form stay in a block that is not returned). *)
Theorem trailing_rows_dropped (rdr : list Line) (ds : list Block)
    (ex : list Trial) :
  process_vmrk rdr = Ok ds →
  Forall (λ m, srcode m ≠ 144 ∧ srcode m ≠ 255) ex →
  process_vmrk (rdr ++ stream ex) = Ok ds.
Proof.
  intros (st & Hr & ->)%process_vmrk_run Hex.
  destruct (run_from_nonboundary st ex (run_ok rdr st Hr) Hex) as (st' & Hst' & Hd).
  rewrite <- Hd. apply process_vmrk_of_run.
  unfold run in *. by rewrite run_from_app, Hr.
Qed.

(** A whole trial after the closing 144 of [sample_rows] *)
Lemma trailing_rows_dropped_witness :
  process_vmrk (sample_rows
                ++ stream [mkTrial 99 8000; mkTrial 1 8010; mkTrial 5 8110])
  = Ok sample_data.
Proof.
  apply trailing_rows_dropped; [reflexivity|].
  repeat constructor; discriminate.
Defined.

(** X19.  On a stream of stimulus markers in which no 255 finds the gate
    open, [process_vmrk] returns the empty dataset: nothing of a session
    that never leaves practice mode is scored. *)
Theorem practice_only_empty (ms : list Trial) :
  (∀ j, ¬ fires (codes ms) j) → process_vmrk (stream ms) = Ok [].
Proof.
  intros Hno.
  destruct (run_stream_cases ms)
    as (st & Hr & _ & [(_ & Hf & _) | (_ & j & [Hj _])]).
  - rewrite (process_vmrk_of_run _ _ Hr).
    destruct Hf as (_ & _ & _ & -> & _). done.
  - by destruct (Hno j).
Qed.

(** Four 99s before the 144 and the 255: the gate stays shut. *)
Lemma practice_only_empty_witness :
  process_vmrk (stream [mkTrial 99 1; mkTrial 99 2; mkTrial 99 3; mkTrial 99 4;
                        mkTrial 144 5; mkTrial 255 6; mkTrial 99 7;
                        mkTrial 1 8; mkTrial 5 108; mkTrial 144 200])
  = Ok [].
Proof.
  apply practice_only_empty. intros j [Hl Ha].
  apply armed_iff in Ha as [_ Hc].
  do 10 (destruct j as [|j]; [try discriminate Hl; discriminate Hc|]).
  discriminate Hl.
Defined.

(** X20.  On any stream of stimulus rows whose code and timestamp fields are
    readable, [process_vmrk] returns a dataset: none of its list accesses can
    fail. *)
Theorem process_vmrk_stream_returns (ms : list Trial) :
  ∃ data, process_vmrk (stream ms) = Ok data.
Proof.
  destruct (run_stream_cases ms) as (st & Hr & _).
  exists (data st). by apply process_vmrk_of_run.
Qed.

(** ** The blocks of the dataset *)

Lemma gather_Forall {A} (P : A → Prop) (l : list A) ii out :
  gather l ii = Ok out → Forall P l → Forall P out.
Proof.
  rewrite gather_Ok. intros H Hl. rewrite Forall_forall in Hl.
  induction H as [|i y ii out Hy _ IH]; constructor; [|done].
  apply Hl. by eapply list_elem_of_lookup_2.
Qed.

Lemma process_trial_sizes qu b b' :
  process_trial qu b = Ok b' →
  Forall (λ n, 3 ≤ n) (Ntri b) → Forall (λ n, 3 ≤ n) (Ntri b').
Proof.
  unfold process_trial. destruct (assemble qu) as [[[c rt] n]|] eqn:Ha;
    [|by intros [= <-]].
  intros Hf Hb. unfold filter_outliers in Hf. simpl in Hf.
  inv_bind Hf as code Hc. inv_bind Hf as rtim Hr. inv_bind Hf as ntri Hn.
  injection Hf as <-. simpl. eapply gather_Forall; [exact Hn|].
  apply Forall_app. split; [done|]. constructor; [|done].
  destruct qu as [|q0 [|q1 [|q2 rest]]]; try discriminate Ha.
  simpl in Ha. destruct (negb _); [discriminate Ha|].
  injection Ha as _ _ <-. unfold len. simpl. lia.
Qed.

Lemma loop_body_blocks (Q : Block → Prop) :
  Q Block_new →
  (∀ qu b b', Q b → process_trial qu b = Ok b' → Q b') →
  ∀ st line st',
    Q (block st) ∧ Forall Q (data st) →
    loop_body st line = Ok st' →
    Q (block st') ∧ Forall Q (data st').
Proof.
  intros Hnew Hpt st line st' [Hb Hd]. unfold loop_body.
  destruct (is_mark line); simpl; [|by intros [= <-]].
  destruct (kind line) as [fl|]; simpl; [|done].
  case_bool_decide; [by intros [= <-]|].
  case_bool_decide; simpl; [|by intros [= <-]].
  destruct (code_field line) as [stimcode|]; simpl; [|done].
  destruct (mode st).
  - destruct (_ && _ && _); by intros [= <-].
  - destruct (time_field line) as [t|]; simpl; [|done].
    destruct (_ || _).
    + destruct (0 <? dblock st).
      * intros Hs. inv_bind Hs as block' Hp. injection Hs as <-.
        split; simpl; [done|]. apply Forall_app. split; [done|].
        constructor; [|done]. by eapply Hpt.
      * by intros [= <-].
    + destruct (stimcode =? 99).
      * intros Hs. inv_bind Hs as block' Hp. injection Hs as <-.
        split; simpl; [|done]. by eapply Hpt.
      * by intros [= <-].
Qed.

(** X21.  In every block of every dataset that [process_vmrk] returns, the
    three lists have the same length, and every recorded number of markers
    is at least 3. *)
Theorem dataset_blocks_well_formed (rdr : list Line) (ds : list Block) :
  process_vmrk rdr = Ok ds →
  Forall (λ b, aligned b ∧ Forall (λ n, 3 ≤ n) (Ntri b)) ds.
Proof.
  intros (st & Hr & ->)%process_vmrk_run.
  enough (H : (aligned (block st) ∧ Forall (λ n, 3 ≤ n) (Ntri (block st)))
              ∧ Forall (λ b, aligned b ∧ Forall (λ n, 3 ≤ n) (Ntri b))
                       (data st)) by apply H.
  revert Hr.
  apply (run_from_invariant
           (λ s, (aligned (block s) ∧ Forall (λ n, 3 ≤ n) (Ntri (block s)))
                 ∧ Forall (λ b, aligned b ∧ Forall (λ n, 3 ≤ n) (Ntri b))
                          (data s)));
    [|by repeat constructor].
  clear. intros st line st'.
  apply (loop_body_blocks (λ b, aligned b ∧ Forall (λ n, 3 ≤ n) (Ntri b)));
    [by repeat constructor|].
  intros qu b b' [Hal Hn] Hp. split; [|by eapply process_trial_sizes].
  apply process_trial_Ok in Hp as [[_ ->] | (_ & _ & Hal')]; done.
Qed.

Lemma dataset_blocks_well_formed_witness :
  Forall (λ b, aligned b ∧ Forall (λ n, 3 ≤ n) (Ntri b)) sample_data.
Proof.
  exact (dataset_blocks_well_formed sample_rows sample_data eq_refl).
Defined.

(** ** Rows that cannot be read *)

Lemma run_from_cons st line rest :
  run_from st (line :: rest) = loop_body st line ≫= λ st', run_from st' rest.
Proof. done. Qed.

(** X22.  A mark row whose kind cannot be read, or a stimulus row whose code
    cannot be read, ends [process_vmrk] with the exception of that field,
    whatever the mode and whatever rows follow. *)
Theorem unreadable_row_is_fatal (rdr : list Line) (st : State) (line : Line)
    (rest : list Line) (e : exn) :
  run rdr = Ok st →
  is_mark line = true →
  kind line = Raise e ∨ (kind line = Ok "stimulus" ∧ code_field line = Raise e) →
  process_vmrk (rdr ++ line :: rest) = Raise e.
Proof.
  intros Hr Hm Hbad. unfold process_vmrk, run in *.
  rewrite run_from_app, Hr. simpl.
  assert (Hl : loop_body st line = Raise e).
  { unfold loop_body. rewrite Hm. simpl.
    destruct Hbad as [-> | [-> ->]]; done. }
  by rewrite Hl.
Qed.

Lemma unreadable_row_is_fatal_witness :
  process_vmrk ([stimulus 99 1; stimulus 99 2]
                ++ mkLine true (Ok "stimulus") (Raise ValueError) (Ok 3)
                   :: [stimulus 99 4])
  = Raise ValueError.
Proof.
  apply (unreadable_row_is_fatal [stimulus 99 1; stimulus 99 2]
           (mkState 0 0 practice 2 false [] [] Block_new)).
  - reflexivity.
  - reflexivity.
  - right. split; reflexivity.
Defined.

(** X23.  The timestamp of a stimulus row is read in experiment mode only:
    there an unreadable timestamp ends [process_vmrk] with its exception,
    while in practice mode the row is processed like any stimulus row with
    the same code. *)
Theorem unreadable_time (rdr : list Line) (st : State) (line : Line)
    (rest : list Line) (c : Z) (e : exn) :
  run rdr = Ok st →
  is_mark line = true → kind line = Ok "stimulus" →
  code_field line = Ok c → time_field line = Raise e →
  (mode st = experiment → process_vmrk (rdr ++ line :: rest) = Raise e)
  ∧ (mode st = practice →
     ∀ t, process_vmrk (rdr ++ line :: rest)
          = process_vmrk (rdr ++ stimulus c t :: rest)).
Proof.
  intros Hr Hm Hk Hc Ht. unfold process_vmrk, run in *.
  split; intros Hmode; [|intros t];
    rewrite !run_from_app, Hr; cbn [mbind res_bind]; rewrite !run_from_cons.
  - assert (Hl : loop_body st line = Raise e).
    { unfold loop_body. rewrite Hm, Hk, Hc, Hmode, Ht. done. }
    rewrite Hl. reflexivity.
  - assert (Hl : loop_body st line = loop_body st (stimulus c t)).
    { unfold loop_body. rewrite Hm, Hk, Hc. simpl. by rewrite Hmode. }
    rewrite Hl. reflexivity.
Qed.

Lemma unreadable_time_witness :
  process_vmrk ([stimulus 99 1; stimulus 99 2; stimulus 99 3; stimulus 144 4;
                 stimulus 255 5]
                ++ mkLine true (Ok "stimulus") (Ok 99) (Raise ValueError) :: [])
  = Raise ValueError
  ∧ process_vmrk ([stimulus 99 1; stimulus 99 2]
                  ++ mkLine true (Ok "stimulus") (Ok 99) (Raise ValueError) :: [])
    = Ok [].
Proof.
  split.
  - apply (proj1 (unreadable_time
                    [stimulus 99 1; stimulus 99 2; stimulus 99 3;
                     stimulus 144 4; stimulus 255 5]
                    (mkState 0 0 experiment 3 true [] [] Block_new)
                    (mkLine true (Ok "stimulus") (Ok 99) (Raise ValueError))
                    [] 99 ValueError eq_refl eq_refl eq_refl eq_refl eq_refl)).
    reflexivity.
  - rewrite (proj2 (unreadable_time
                      [stimulus 99 1; stimulus 99 2]
                      (mkState 0 0 practice 2 false [] [] Block_new)
                      (mkLine true (Ok "stimulus") (Ok 99) (Raise ValueError))
                      [] 99 ValueError eq_refl eq_refl eq_refl eq_refl eq_refl)
               eq_refl 0).
    reflexivity.
Defined.

(** ** [collapse_blocks] on records *)

Lemma rows_app b1 b2 :
  aligned b1 →
  zip (zip (Code b1 ++ Code b2) (Rtim b1 ++ Rtim b2)) (Ntri b1 ++ Ntri b2)
  = rows b1 ++ rows b2.
Proof.
  intros [Hc Hn]. unfold rows.
  rewrite (zip_with_app pair (Code b1) (Code b2)) by done.
  by rewrite zip_with_app by (rewrite length_zip_with; lia).
Qed.

(** X24.  For blocks whose three lists have the same length,
    [collapse_blocks] returns a block of that kind that holds the records of
    the blocks, whole, in block order and then in order within the block;
    the empty dataset collapses to the empty block. *)
Theorem collapse_blocks_rows (data : list Block) :
  Forall aligned data →
  rows (collapse_blocks data) = concat (rows <$> data)
  ∧ aligned (collapse_blocks data).
Proof.
  intros Hal. rewrite collapse_blocks_concat.
  induction Hal as [|b data Hb _ [IHr IHa]]; [by split|].
  rewrite !fmap_cons. cbn [concat]. split.
  - rewrite <- IHr.
    exact (rows_app b (mkBlock (concat (Code <$> data)) (concat (Rtim <$> data))
                               (concat (Ntri <$> data))) Hb).
  - destruct Hb as [Hc Hn], IHa as [Hc' Hn']. unfold aligned in *. simpl in *.
    rewrite !length_app. lia.
Qed.

Lemma collapse_blocks_rows_witness :
  rows (collapse_blocks [one_trial; mkBlock [] [] []; one_trial])
  = [(Code.mk "left" true true, 200, 3); (Code.mk "left" true true, 200, 3)].
Proof.
  rewrite (proj1 (collapse_blocks_rows [one_trial; mkBlock [] [] []; one_trial]
                    ltac:(repeat constructor))).
  reflexivity.
Defined.

(** ** Post-X counts *)

(** X25.  The post-X count of a list of per-block query results is the
    total number of response times in them minus the number of results that
    are not empty: each block that contributes at all loses exactly one
    entry, its first. *)
Theorem post_count_drops_firsts (v : list (list Z)) :
  post_count v = len (concat v) - len (filter (λ x, x ≠ []) v).
Proof.
  unfold post_count, sum, len.
  induction v as [|x v IH]; [done|].
  cbn [map foldr concat]. rewrite IH, length_app.
  destruct x as [|y x].
  - rewrite filter_cons_False by (intros H; by apply H). simpl. lia.
  - rewrite filter_cons_True by done. simpl. lia.
Qed.

(** ** The subject id *)

Lemma before_dot_append s t :
  dotless s = true → before_dot (s +:+ t) = s +:+ before_dot t.
Proof.
  induction s as [|a s IH]; simpl; [done|].
  destruct (Ascii.eqb a "."); simpl; [done|]. intros Hs. by rewrite IH.
Qed.

(** X26.  [before_dot], which computes sid, returns the part of the file
    name before its first dot: the result has no dot, a name without a dot
    is returned whole, and a dot-free name followed by a dot and anything
    else is returned without them. *)
Theorem before_dot_spec (s t : string) :
  dotless (before_dot s) = true
  ∧ (dotless s = true → before_dot s = s)
  ∧ (dotless s = true → before_dot (s +:+ String "." t) = s).
Proof.
  split; [|split].
  - induction s as [|a s IH]; simpl; [done|].
    destruct (Ascii.eqb a ".") eqn:Ha; simpl; [done|]. by rewrite Ha.
  - induction s as [|a s IH]; simpl; [done|].
    destruct (Ascii.eqb a "."); simpl; [done|]. intros Hs. by rewrite IH.
  - intros Hs. rewrite before_dot_append by done. simpl. clear Hs.
    induction s as [|a s IH]; [done|].
    change (String a s +:+ "") with (String a (s +:+ "")). by f_equal.
Qed.

Lemma before_dot_spec_witness :
  before_dot "subj01.run2.vmrk" = "subj01" ∧ before_dot "subj01" = "subj01".
Proof.
  split.
  - exact (proj2 (proj2 (before_dot_spec "subj01" "run2.vmrk")) eq_refl).
  - exact (proj1 (proj2 (before_dot_spec "subj01" "")) eq_refl).
Defined.

(** ** The classifier *)

(** X27.  On the stimulus codes 1 to 4, [Code.fromSRCodes] is one-to-one
    onto the four combinations of side and congruency (1 left congruent,
    2 left incongruent, 3 right congruent, 4 right incongruent); every other
    stimulus code is classified like 4, and the response is correct exactly
    for the response codes 5 and 6.  Neither part depends on the other
    code. *)
Theorem fromSRCodes_classes (a a' b b' : Z) :
  (1 ≤ a ≤ 4 → 1 ≤ a' ≤ 4 →
   Code.side (Code.fromSRCodes a b) = Code.side (Code.fromSRCodes a' b') →
   Code.congruent (Code.fromSRCodes a b) = Code.congruent (Code.fromSRCodes a' b') →
   a = a')
  ∧ (¬ 1 ≤ a ≤ 3 →
     Code.side (Code.fromSRCodes a b) = "right"
     ∧ Code.congruent (Code.fromSRCodes a b) = false)
  ∧ (Code.correct (Code.fromSRCodes a b) = true ↔ b = 5 ∨ b = 6).
Proof.
  unfold Code.fromSRCodes. simpl. split; [|split].
  - intros Ha Ha'.
    assert (Hc : a = 1 ∨ a = 2 ∨ a = 3 ∨ a = 4) by lia.
    assert (Hc' : a' = 1 ∨ a' = 2 ∨ a' = 3 ∨ a' = 4) by lia.
    destruct Hc as [-> | [-> | [-> | ->]]], Hc' as [-> | [-> | [-> | ->]]];
      simpl; intros Hs Hg; try done.
  - intros Ha.
    destruct (Z.eqb_spec a 1), (Z.eqb_spec a 2), (Z.eqb_spec a 3);
      simpl; try lia; done.
  - destruct (Z.eqb_spec b 5), (Z.eqb_spec b 6); simpl; split;
      try done; try tauto; intros [?|?]; lia.
Qed.

(** A boundary code read as a stimulus and a fixation code read as a
    response *)
Lemma fromSRCodes_classes_witness :
  Code.side (Code.fromSRCodes 144 99) = "right"
  ∧ Code.congruent (Code.fromSRCodes 144 99) = false.
Proof.
  apply (proj1 (proj2 (fromSRCodes_classes 144 1 99 5))). lia.
Defined.

(** ** Statistics of an empty selection *)




